(** * Marlin LPC1768 [upload_extra_script.py]: the upload-disk autodetection hook

    A shallow embedding of [before_upload] and [print_error] of
    [Marlin/src/HAL/LPC1768/upload_extra_script.py], and the properties of the
    drive resolution that the hook performs on Windows, Linux and macOS.

    The hook is effectful: it reads the host (operating system name, logical
    drives, directory listings, the output of [cmd /C vol] and [cmd /C dir]),
    it writes the build environment ([env.Replace]) and it prints.  The host
    is a record of functions ([World]); the build environment and the printed
    text are threaded through a small state-and-exception monad ([M]). *)

From Stdlib Require Import ZArith String Ascii List Bool Lia.
From stdpp Require Import gmap strings list.

Local Open Scope string_scope.
Local Open Scope Z_scope.
Local Open Scope list_scope.

(** ** Python values *)

(** The values the hook's variables hold: [str], [pathlib.Path] and
    [pathlib.PureWindowsPath].  A path is represented by its text
    ([str(path)]); two paths of one class are equal when their texts are. *)
Inductive pyval : Type :=
| PStr (s : string)
| PPath (s : string)
| PWinPath (s : string).

(** [a == b].  [PurePath.__eq__] answers [NotImplemented] for an operand that
    is not a path, and so does [str.__eq__] for one that is not a [str]; the
    comparison then falls back to identity, which is false for two distinct
    objects.  Paths of different flavours are unequal. *)
Definition py_eq (a b : pyval) : bool :=
  match a, b with
  | PStr s, PStr t => String.eqb s t
  | PPath s, PPath t => String.eqb s t
  | PWinPath s, PWinPath t => String.eqb s t
  | _, _ => false
  end.

(** [x in l] for a list [l]: some element is [==] to [x]. *)
Definition py_in (x : pyval) (l : list pyval) : bool := existsb (py_eq x) l.

(** [str(v)]. *)
Definition py_str (v : pyval) : string :=
  match v with PStr s | PPath s | PWinPath s => s end.

(** [needle in hay] for two [str]: substring test. *)
Fixpoint str_in (needle hay : string) : bool :=
  String.prefix needle hay ||
  match hay with
  | EmptyString => false
  | String _ hay' => str_in needle hay'
  end.

(** Iterating over a [str] yields its characters as one-character strings. *)
Fixpoint str_iter (s : string) : list string :=
  match s with
  | EmptyString => []
  | String c s' => String c EmptyString :: str_iter s'
  end.

Definition LF : string := String "010"%char EmptyString.

(** [sep.join(l)]. *)
Fixpoint str_join (sep : string) (l : list string) : string :=
  match l with
  | [] => ""
  | [x] => x
  | x :: rest => x +:+ sep +:+ str_join sep rest
  end.

(** ** Paths *)

(** [Path(a, b)] for an absolute [a] and a name [b]; also the path of the
    entry [b] that [a.iterdir()] yields. *)
Definition path_child (p name : string) : string := p +:+ "/" +:+ name.

(** A posix path is absolute when its text starts with a slash. *)
Definition is_absolute (p : string) : bool :=
  match p with
  | String c _ => Ascii.eqb c "/"
  | EmptyString => false
  end.

(** [p / other] on a posix path: an absolute right operand replaces the left
    one, a relative one is appended. *)
Definition path_div (p : string) (other : pyval) : string :=
  let o := py_str other in
  if is_absolute o then o else path_child p o.

(** ** The host *)

(** The outcome of an operation that may raise; an exception is represented
    by its text [str(e)]. *)
Inductive result (A : Type) : Type :=
| Ok (a : A)
| Raise (e : string).
Arguments Ok {A} a.
Arguments Raise {A} e.

(** A directory entry as [iterdir] yields it, with the answers of
    [is_dir()] and [is_file()] on it.  [is_dir()] is called on the entries of
    the media root outside every handler of the loops, and it raises when the
    entry cannot be examined (access denied, a stale mount); [is_file()] is
    called inside the handler of a drive only, where an error of it is an
    error of the listing of that drive ([iterdir] raises). *)
Record dirent : Type := { name : string; is_dir : result bool; is_file : bool }.

Record World : Type := {
  current_OS : string;                      (* platform.system() *)
  GetLogicalDrives : Z;                     (* windll.kernel32.GetLogicalDrives() *)
  check_output : string -> result string;   (* str(subprocess.check_output(cmd, ...)) *)
  getuser : result string;                  (* getpass.getuser() *)
  iterdir : string -> result (list dirent)  (* the entries of Path(p).iterdir() *)
}.

(** ** The build environment and the printed text *)

Inductive event : Type :=
| Replace (key value : string)   (* env.Replace(key=value) *)
| Print (text : string).         (* text written by print *)

(** [before_upload] is handed the environment the script registered it on;
    [print_error] reads that same object through the global [env]. *)
Record hook_state : Type := {
  env : gmap string string;   (* the construction variables of [env] *)
  trace : list event          (* what the hook did, oldest first *)
}.

Definition M (A : Type) : Type := hook_state -> result A * hook_state.

Definition ret {A} (a : A) : M A := fun st => (Ok a, st).

Definition bind {A B} (c : M A) (k : A -> M B) : M B :=
  fun st =>
    match c st with
    | (Ok a, st') => k a st'
    | (Raise e, st') => (Raise e, st')
    end.

Notation "x <- c ;; k" := (bind c (fun x => k))
  (at level 100, c at next level, right associativity).
Notation "c ;;; k" := (bind c (fun _ => k))
  (at level 100, right associativity).

(** An operation of the host, run inside the hook. *)
Definition lift {A} (r : result A) : M A := fun st => (r, st).

(** [try: body / except Exception as e: handler(str(e))]. *)
Definition try_except {A} (body : M A) (handler : string -> M A) : M A :=
  fun st =>
    match body st with
    | (Ok a, st') => (Ok a, st')
    | (Raise e, st') => handler e st'
    end.

Definition env_Replace (key value : string) : M unit :=
  fun st => (Ok tt, {| env := <[key := value]> (env st);
                       trace := trace st ++ [Replace key value] |}).

Definition add_events (st : hook_state) (evs : list event) : hook_state :=
  {| env := env st; trace := trace st ++ evs |}.
Arguments add_events : simpl never.

(** [print(a, b, ...)]: the arguments separated by a space, then a newline. *)
Definition print (args : list string) : M unit :=
  fun st => (Ok tt, add_events st [Print (str_join " " args +:+ LF)]).

(** [env.get(key)] formatted with [%s]: a missing key gives [None]. *)
Definition env_get_str (key : string) : M string :=
  fun st => (Ok (default "None" (env st !! key)), st).

(** ** The script *)

Definition target_filename : string := "FIRMWARE.CUR".
Definition target_drive : string := "REARM".

Definition print_error_text (e pioenv : string) : string :=
  LF +:+ "Unable to find destination disk (" +:+ e +:+ ")" +:+ LF +:+
  "Please select it in platformio.ini using the upload_port keyword " +:+
  "(https://docs.platformio.org/en/latest/projectconf/section_env_upload.html) " +:+
  "or copy the firmware (.pio/build/" +:+ pioenv +:+
  "/firmware.bin) manually to the appropriate disk" +:+ LF.

Definition print_error (e : string) : M unit :=
  pioenv <- env_get_str "PIOENV" ;;
  print [print_error_text e pioenv].

(** The three local variables of [before_upload] that the branches assign. *)
Record locals : Type := {
  upload_disk : pyval;
  target_file_found : bool;
  target_drive_found : bool
}.

Definition set_drive (l : locals) (p : pyval) : locals :=
  {| upload_disk := p; target_file_found := target_file_found l;
     target_drive_found := true |}.

Definition set_file (l : locals) (p : pyval) : locals :=
  {| upload_disk := p; target_file_found := true;
     target_drive_found := target_drive_found l |}.

(** *** Windows (lines 46-75) *)

Definition ascii_uppercase : string := "ABCDEFGHIJKLMNOPQRSTUVWXYZ".

(** Lines 46-51: the letters whose bit is set, the mask shifted right by one
    after each letter. *)
Fixpoint drive_letters (letters : list string) (bitmask : Z) (drives : list string)
  : list string :=
  match letters with
  | [] => drives
  | letter :: rest =>
      let drives := if negb (Z.land bitmask 1 =? 0) then drives ++ [letter] else drives in
      drive_letters rest (Z.shiftr bitmask 1) drives
  end.

(** Lines 53-75: [break] returns the locals, [continue] goes on with the rest. *)
Fixpoint windows_loop (w : World) (drives : list string) (l : locals) : M locals :=
  match drives with
  | [] => ret l
  | drive :: rest =>
      let final_drive_name := drive +:+ ":" in
      match check_output w ("cmd /C vol " +:+ final_drive_name) with
      | Raise e => print ["error:" +:+ e] ;;; windows_loop w rest l
      | Ok volume_info =>
          if str_in target_drive volume_info then
            ret (set_drive l (PWinPath final_drive_name))
          else
            match check_output w ("cmd /C dir " +:+ final_drive_name) with
            | Raise e => print ["error:" +:+ e] ;;; windows_loop w rest l
            | Ok dir_info =>
                if str_in target_filename dir_info then
                  ret (set_file l (PWinPath final_drive_name))
                else windows_loop w rest l
            end
      end
  end.

Definition windows_drives (w : World) : list string :=
  drive_letters (str_iter ascii_uppercase) (GetLogicalDrives w) [].
Arguments windows_drives : simpl never.

Definition windows_branch (w : World) (l : locals) : M locals :=
  windows_loop w (windows_drives w) l.

(** *** Linux and macOS *)

(** The entries [x] kept by [if x.is_dir()], in order; the first entry on
    which [is_dir()] raises ends the comprehension with that exception. *)
Fixpoint keep_dirs (entries : list dirent) : result (list dirent) :=
  match entries with
  | [] => Ok []
  | x :: rest =>
      match is_dir x with
      | Raise e => Raise e
      | Ok b =>
          match keep_dirs rest with
          | Raise e => Raise e
          | Ok dirs => Ok (if b then x :: dirs else dirs)
          end
      end
  end.

(** [[ x for x in root.iterdir() if x.is_dir() ]]: a list of [Path]. *)
Definition subdirs (root : string) (entries : list dirent) : result (list pyval) :=
  match keep_dirs entries with
  | Raise e => Raise e
  | Ok dirs => Ok (map (fun x => PPath (path_child root (name x))) dirs)
  end.

(** [[ x.name for x in fpath.iterdir() if x.is_file() ]]: a list of [str]. *)
Definition file_names (entries : list dirent) : list pyval :=
  map (fun x => PStr (name x)) (List.filter is_file entries).

(** Lines 89-99 and 118-128 (the two loops are the same text): a drive whose
    listing raises is skipped by the bare [except], the first drive whose
    file names hold [target_filename] is taken and ends the loop. *)
Fixpoint file_loop (w : World) (root : string) (drives : list pyval) (l : locals)
  : locals :=
  match drives with
  | [] => l
  | drive :: rest =>
      let fpath := path_div root drive in
      match iterdir w fpath with
      | Raise _ => file_loop w root rest l
      | Ok entries =>
          if py_in (PStr target_filename) (file_names entries) then
            set_file l (PPath (path_div root drive))
          else file_loop w root rest l
      end
  end.

(** Lines 81-107. *)
Definition linux_branch (w : World) (l : locals) : M locals :=
  user <- lift (getuser w) ;;
  let mpath := path_child "/media" user in
  entries <- lift (iterdir w mpath) ;;
  drives <- lift (subdirs mpath entries) ;;
  let l :=
    if py_in (PStr target_drive) drives then
      set_drive l (PPath (path_div mpath (PStr target_drive)))
    else file_loop w mpath drives l in
  if target_file_found l || target_drive_found l then
    env_Replace "UPLOAD_FLAGS" "-P$UPLOAD_PORT" ;;; ret l
  else ret l.

(** Lines 113-128. *)
Definition darwin_branch (w : World) (l : locals) : M locals :=
  let dpath := "/Volumes" in
  entries <- lift (iterdir w dpath) ;;
  drives <- lift (subdirs dpath entries) ;;
  let l :=
    if py_in (PStr target_drive) drives && negb (target_file_found l) then
      set_drive l (PPath (path_div dpath (PStr target_drive)))
    else l in
  ret (file_loop w dpath drives l).

Definition initial_locals : locals :=
  {| upload_disk := PStr "Disk not found";
     target_file_found := false;
     target_drive_found := false |}.

(** Lines 133-137. *)
Definition report (l : locals) : M unit :=
  if target_file_found l || target_drive_found l then
    env_Replace "UPLOAD_PORT" (py_str (upload_disk l)) ;;;
    print [LF +:+ "Upload disk: "; py_str (upload_disk l); LF]
  else print_error "Autodetect Error".

(** Lines 29-137: the body of the [try]. *)
Definition before_upload_body (w : World) : M unit :=
  l <- (if String.eqb (current_OS w) "Windows" then windows_branch w initial_locals
        else if String.eqb (current_OS w) "Linux" then linux_branch w initial_locals
        else if String.eqb (current_OS w) "Darwin" then darwin_branch w initial_locals
        else ret initial_locals) ;;
  report l.

(** Lines 27-140. *)
Definition before_upload (w : World) : M unit :=
  try_except (before_upload_body w) (fun e => print_error e).

(** ** The candidates of a host *)

(** What the claims call a candidate: a drive letter on Windows, a
    subdirectory of the media root on Linux or of [/Volumes] on macOS, with
    the path the hook would write for it. *)
Record candidate : Type := { cand_name : string; cand_path : pyval }.

Definition windows_candidates (w : World) : list candidate :=
  map (fun d => {| cand_name := d; cand_path := PWinPath (d +:+ ":") |})
      (windows_drives w).

Definition posix_candidates (root : string) (dirs : list dirent) : list candidate :=
  map (fun x => {| cand_name := name x; cand_path := PPath (path_child root (name x)) |})
      dirs.

(** The enumeration the hook performs on each system; it raises when the
    media root cannot be listed, when [is_dir()] raises on one of its entries,
    or when the user name cannot be had. *)
Definition candidates (w : World) : result (list candidate) :=
  if String.eqb (current_OS w) "Windows" then Ok (windows_candidates w)
  else if String.eqb (current_OS w) "Linux" then
    match getuser w with
    | Raise e => Raise e
    | Ok user =>
        match iterdir w (path_child "/media" user) with
        | Raise e => Raise e
        | Ok entries =>
            match keep_dirs entries with
            | Raise e => Raise e
            | Ok dirs => Ok (posix_candidates (path_child "/media" user) dirs)
            end
        end
    end
  else if String.eqb (current_OS w) "Darwin" then
    match iterdir w "/Volumes" with
    | Raise e => Raise e
    | Ok entries =>
        match keep_dirs entries with
        | Raise e => Raise e
        | Ok dirs => Ok (posix_candidates "/Volumes" dirs)
        end
    end
  else Ok [].

(** The directory [p] can be listed and holds a file named [target_filename]. *)
Definition has_file (w : World) (p : string) : bool :=
  match iterdir w p with
  | Ok entries => py_in (PStr target_filename) (file_names entries)
  | Raise _ => false
  end.

Definition vol_cmd (drive : string) : string := "cmd /C vol " +:+ (drive +:+ ":").
Definition dir_cmd (drive : string) : string := "cmd /C dir " +:+ (drive +:+ ":").

(** The candidate's label matches: on Windows the text of [vol] holds
    [target_drive], elsewhere the subdirectory is named [target_drive]. *)
Definition label_matches (w : World) (c : candidate) : bool :=
  if String.eqb (current_OS w) "Windows" then
    match check_output w (vol_cmd (cand_name c)) with
    | Ok volume_info => str_in target_drive volume_info
    | Raise _ => false
    end
  else String.eqb (cand_name c) target_drive.

(** The candidate contains the target file: on Windows the text of [dir]
    holds [target_filename], elsewhere the listing has a file of that name. *)
Definition contains_file (w : World) (c : candidate) : bool :=
  if String.eqb (current_OS w) "Windows" then
    match check_output w (dir_cmd (cand_name c)) with
    | Ok dir_info => str_in target_filename dir_info
    | Raise _ => false
    end
  else has_file w (py_str (cand_path c)).

(** What one turn of the Windows loop finds for a drive. *)
Inductive probe : Type :=
| LabelMatch
| FileMatch
| NoMatch
| QueryError (e : string).

Definition win_probe (w : World) (drive : string) : probe :=
  match check_output w (vol_cmd drive) with
  | Raise e => QueryError e
  | Ok volume_info =>
      if str_in target_drive volume_info then LabelMatch
      else match check_output w (dir_cmd drive) with
           | Raise e => QueryError e
           | Ok dir_info =>
               if str_in target_filename dir_info then FileMatch else NoMatch
           end
  end.

Definition probe_matches (p : probe) : bool :=
  match p with LabelMatch | FileMatch => true | _ => false end.

(** The query of a candidate raises: [vol] or (when reached) [dir] on
    Windows, the listing of the subdirectory elsewhere. *)
Definition query_error (w : World) (c : candidate) : Prop :=
  if String.eqb (current_OS w) "Windows" then
    exists e, win_probe w (cand_name c) = QueryError e
  else exists e, iterdir w (py_str (cand_path c)) = Raise e.

(** The value of [PIOENV] as [print_error] formats it. *)
Definition pioenv (st : hook_state) : string := default "None" (env st !! "PIOENV").

Definition success_text (p : string) : string :=
  str_join " " [LF +:+ "Upload disk: "; p; LF] +:+ LF.

(** The state after a successful [report]. *)
Definition uploaded (st : hook_state) (p : string) : hook_state :=
  {| env := <["UPLOAD_PORT" := p]> (env st);
     trace := trace st ++ [Replace "UPLOAD_PORT" p; Print (success_text p)] |}.

(** The state after [print_error e]. *)
Definition failed (st : hook_state) (e : string) : hook_state :=
  add_events st [Print (print_error_text e (pioenv st) +:+ LF)].

(** The state after the Linux branch has set the upload flags. *)
Definition flagged (st : hook_state) : hook_state :=
  {| env := <["UPLOAD_FLAGS" := "-P$UPLOAD_PORT"]> (env st);
     trace := trace st ++ [Replace "UPLOAD_FLAGS" "-P$UPLOAD_PORT"] |}.

(** ** What a run of the hook amounts to *)

(** The line printed when a query of a drive raises. *)
Definition error_line (e : string) : event := Print ("error:" +:+ e +:+ LF).

(** The lines the loop prints: one for each drive whose query raises, up to
    the first drive that matches. *)
Fixpoint win_prints (w : World) (drives : list string) : list event :=
  match drives with
  | [] => []
  | d :: rest =>
      match win_probe w d with
      | LabelMatch | FileMatch => []
      | NoMatch => win_prints w rest
      | QueryError e => error_line e :: win_prints w rest
      end
  end.

(** The locals after the loop: those of the first drive that matches. *)
Definition win_select (w : World) (drives : list string) (l : locals) : locals :=
  match find (fun d => probe_matches (win_probe w d)) drives with
  | Some d =>
      match win_probe w d with
      | LabelMatch => set_drive l (PWinPath (d +:+ ":"))
      | _ => set_file l (PWinPath (d +:+ ":"))
      end
  | None => l
  end.

(** The locals after the Linux and the macOS scans: the first candidate,
    in the order of enumeration, that can be listed and holds the file. *)
Definition posix_select (w : World) (cs : list candidate) : locals :=
  match find (fun c => has_file w (py_str (cand_path c))) cs with
  | Some c => set_file initial_locals (cand_path c)
  | None => initial_locals
  end.

(** The hook takes a candidate when its probe matches (Windows) or when it
    can be listed and holds the target file (Linux, macOS). *)
Definition takes (w : World) (c : candidate) : bool :=
  if String.eqb (current_OS w) "Windows"
  then probe_matches (win_probe w (cand_name c))
  else has_file w (py_str (cand_path c)).

(** The error lines of the scan (only the Windows loop prints any). *)
Definition scan_prints (w : World) : list event :=
  if String.eqb (current_OS w) "Windows" then win_prints w (windows_drives w) else [].

(** The upload flags are set on Linux only. *)
Definition flag_linux (w : World) (st : hook_state) : hook_state :=
  if String.eqb (current_OS w) "Linux" then flagged st else st.

(** The events of one run of the hook, read off [before_upload_outcome]. *)
Definition hook_events (w : World) (st : hook_state) : list event :=
  match candidates w with
  | Raise e => [Print (print_error_text e (pioenv st) +:+ LF)]
  | Ok cs =>
      scan_prints w ++
      match find (takes w) cs with
      | Some c =>
          (if String.eqb (current_OS w) "Linux"
           then [Replace "UPLOAD_FLAGS" "-P$UPLOAD_PORT"] else []) ++
          [Replace "UPLOAD_PORT" (py_str (cand_path c));
           Print (success_text (py_str (cand_path c)))]
      | None => [Print (print_error_text "Autodetect Error" (pioenv st) +:+ LF)]
      end
  end.

(** The two hosts give the same answers about a candidate. *)
Definition same_answers (w w' : World) (c : candidate) : Prop :=
  check_output w (vol_cmd (cand_name c)) = check_output w' (vol_cmd (cand_name c)) /\
  check_output w (dir_cmd (cand_name c)) = check_output w' (dir_cmd (cand_name c)) /\
  iterdir w (py_str (cand_path c)) = iterdir w' (py_str (cand_path c)).

(** Where a candidate comes from, on each system. *)
Definition enumerated (w : World) (c : candidate) : Prop :=
  (current_OS w = "Windows" /\
   cand_path c = PWinPath (cand_name c +:+ ":") /\
   exists i : nat,
     nth_error (str_iter ascii_uppercase) i = Some (cand_name c) /\
     Z.testbit (GetLogicalDrives w) (Z.of_nat i) = true) \/
  (current_OS w = "Linux" /\
   exists user entries x,
     getuser w = Ok user /\
     iterdir w (path_child "/media" user) = Ok entries /\
     In x entries /\ is_dir x = Ok true /\ cand_name c = name x /\
     cand_path c = PPath (path_child (path_child "/media" user) (name x))) \/
  (current_OS w = "Darwin" /\
   exists entries x,
     iterdir w "/Volumes" = Ok entries /\
     In x entries /\ is_dir x = Ok true /\ cand_name c = name x /\
     cand_path c = PPath (path_child "/Volumes" (name x))).

(** ** Example hosts *)

Definition dir_entry (n : string) : dirent :=
  {| name := n; is_dir := Ok true; is_file := false |}.

Definition file_entry (n : string) : dirent :=
  {| name := n; is_dir := Ok false; is_file := true |}.

(** A file system given by the listings of some directories; any other
    path does not exist. *)
Fixpoint listing (tbl : list (string * result (list dirent))) (p : string)
  : result (list dirent) :=
  match tbl with
  | [] => Raise ("[Errno 2] No such file or directory: '" +:+ p +:+ "'")
  | (q, r) :: rest => if String.eqb p q then r else listing rest p
  end.

Definition posix_host (os : string) (tbl : list (string * result (list dirent)))
  : World :=
  {| current_OS := os;
     GetLogicalDrives := 0;
     check_output := fun _ => Raise "[Errno 2] No such file or directory: 'cmd'";
     getuser := Ok "marlin";
     iterdir := listing tbl |}.

(** Answers of [cmd], given by command line. *)
Fixpoint answers (tbl : list (string * result string)) (cmd : string) : result string :=
  match tbl with
  | [] => Raise ("Command '" +:+ cmd +:+ "' returned non-zero exit status 1.")
  | (c, r) :: rest => if String.eqb cmd c then r else answers rest cmd
  end.

Definition windows_host (mask : Z) (tbl : list (string * result string)) : World :=
  {| current_OS := "Windows";
     GetLogicalDrives := mask;
     check_output := answers tbl;
     getuser := Ok "marlin";
     iterdir := fun p => Raise ("[WinError 3] The system cannot find the path specified: '"
                                +:+ p +:+ "'") |}.

(** A build environment before the hook runs. *)
Definition env0 : hook_state :=
  {| env := {[ "PIOENV" := "LPC1768" ]}; trace := [] |}.

(** The media root of user [marlin] holds the subdirectories [REARM] and
    [OTHER]; [REARM] is empty and [OTHER] holds the given entries. *)
Definition linux_rearm_other (other : list dirent) : World :=
  posix_host "Linux"
    [("/media/marlin", Ok [dir_entry "REARM"; dir_entry "OTHER"]);
     ("/media/marlin/REARM", Ok []);
     ("/media/marlin/OTHER", Ok other)].

(** The volumes [Macintosh HD] and [REARM]; neither holds the firmware
    file. *)
Definition darwin_rearm_only : World :=
  posix_host "Darwin"
    [("/Volumes", Ok [dir_entry "Macintosh HD"; dir_entry "REARM"]);
     ("/Volumes/Macintosh HD", Ok [dir_entry "Users"]);
     ("/Volumes/REARM", Ok [])].

(** Drives [C] and [D]: [C] has no label and holds the file, [D] is labelled
    [REARM]. *)
Definition windows_file_then_label : World :=
  windows_host 12
    [("cmd /C vol C:", Ok "b' Volume in drive C has no label.'");
     ("cmd /C dir C:", Ok "b' Directory of C:\  FIRMWARE.CUR  firmware.bin'");
     ("cmd /C vol D:", Ok "b' Volume in drive D is REARM'");
     ("cmd /C dir D:", Ok "b' Directory of D:\  File Not Found'")].

(** Two volumes that both hold the firmware file. *)
Definition darwin_two_firmware : World :=
  posix_host "Darwin"
    [("/Volumes", Ok [dir_entry "DISK_A"; dir_entry "DISK_B"]);
     ("/Volumes/DISK_A", Ok [file_entry "FIRMWARE.CUR"]);
     ("/Volumes/DISK_B", Ok [file_entry "FIRMWARE.CUR"; file_entry "firmware.bin"])].

(** The volume [REARM] is empty and comes first, [DISK_B] holds the file. *)
Definition darwin_label_then_file : World :=
  posix_host "Darwin"
    [("/Volumes", Ok [dir_entry "REARM"; dir_entry "DISK_B"]);
     ("/Volumes/REARM", Ok []);
     ("/Volumes/DISK_B", Ok [file_entry "FIRMWARE.CUR"])].

(** The volume [REARM] comes first and holds the firmware file itself;
    [DISK_B] holds it too. *)
Definition darwin_label_holds_file : World :=
  posix_host "Darwin"
    [("/Volumes", Ok [dir_entry "REARM"; dir_entry "DISK_B"]);
     ("/Volumes/REARM", Ok [file_entry "FIRMWARE.CUR"]);
     ("/Volumes/DISK_B", Ok [file_entry "FIRMWARE.CUR"])].

(** [DISK_A] holds the firmware file and comes before the volume [REARM];
    [DISK_B] holds it too and comes after. *)
Definition darwin_file_label_file : World :=
  posix_host "Darwin"
    [("/Volumes", Ok [dir_entry "DISK_A"; dir_entry "REARM"; dir_entry "DISK_B"]);
     ("/Volumes/DISK_A", Ok [file_entry "FIRMWARE.CUR"]);
     ("/Volumes/REARM", Ok []);
     ("/Volumes/DISK_B", Ok [file_entry "FIRMWARE.CUR"])].


(** The subdirectory [OTHER2] of the media root holds the firmware file. *)
Definition linux_file_in_second : World :=
  posix_host "Linux"
    [("/media/marlin", Ok [dir_entry "OTHER1"; dir_entry "OTHER2"]);
     ("/media/marlin/OTHER1", Ok [file_entry "readme.txt"]);
     ("/media/marlin/OTHER2", Ok [file_entry "FIRMWARE.CUR"])].

(** The subdirectory [LOCKED] cannot be listed; [OTHER2] holds the file. *)
Definition linux_locked_then_file : World :=
  posix_host "Linux"
    [("/media/marlin", Ok [dir_entry "LOCKED"; dir_entry "OTHER2"]);
     ("/media/marlin/LOCKED",
      Raise "[Errno 13] Permission denied: '/media/marlin/LOCKED'");
     ("/media/marlin/OTHER2", Ok [file_entry "FIRMWARE.CUR"])].

(** The same host without [LOCKED]. *)
Definition linux_file_only : World :=
  posix_host "Linux"
    [("/media/marlin", Ok [dir_entry "OTHER2"]);
     ("/media/marlin/OTHER2", Ok [file_entry "FIRMWARE.CUR"])].

(** A Linux host whose media root does not exist. *)
Definition linux_no_media_root : World := posix_host "Linux" [].

(** An entry of the media root on which [is_dir()] raises. *)
Definition stale_entry (n e : string) : dirent :=
  {| name := n; is_dir := Raise e; is_file := false |}.

(** The entry [STALE] of the media root cannot be examined; the
    subdirectory [OTHER2] holds the firmware file. *)
Definition linux_stale_then_file : World :=
  posix_host "Linux"
    [("/media/marlin",
      Ok [stale_entry "STALE"
            "[Errno 107] Transport endpoint is not connected: '/media/marlin/STALE'";
          dir_entry "OTHER2"]);
     ("/media/marlin/OTHER2", Ok [file_entry "FIRMWARE.CUR"])].

(** Drives [A], [C] and [D]: [A] is not ready, [C] answers [vol] without
    the label but not [dir], [D] is labelled [REARM]. *)
Definition windows_errors_then_label : World :=
  windows_host 13
    [("cmd /C vol A:", Raise "Command 'cmd /C vol A:' returned non-zero exit status 1.");
     ("cmd /C vol C:", Ok "b' Volume in drive C is SYSTEM'");
     ("cmd /C dir C:", Raise "Command 'cmd /C dir C:' returned non-zero exit status 5.");
     ("cmd /C vol D:", Ok "b' Volume in drive D is REARM'")].

(** The same host without the drive [C]. *)
Definition windows_errors_then_label_less : World :=
  windows_host 9
    [("cmd /C vol A:", Raise "Command 'cmd /C vol A:' returned non-zero exit status 1.");
     ("cmd /C vol C:", Ok "b' Volume in drive C is SYSTEM'");
     ("cmd /C dir C:", Raise "Command 'cmd /C dir C:' returned non-zero exit status 5.");
     ("cmd /C vol D:", Ok "b' Volume in drive D is REARM'")].

(** Drive [E] alone, labelled [REARM2]. *)
Definition windows_rearm2 : World :=
  windows_host 16
    [("cmd /C vol E:", Ok "b' Volume in drive E is REARM2'");
     ("cmd /C dir E:", Ok "b' Directory of E:\  File Not Found'")].

(** The drives of [windows_file_then_label], with bit 26 of the mask set
    as well. *)
Definition windows_high_bit : World :=
  windows_host 67108876
    [("cmd /C vol C:", Ok "b' Volume in drive C has no label.'");
     ("cmd /C dir C:", Ok "b' Directory of C:\  FIRMWARE.CUR  firmware.bin'");
     ("cmd /C vol D:", Ok "b' Volume in drive D is REARM'");
     ("cmd /C dir D:", Ok "b' Directory of D:\  File Not Found'")].

(** Drives [A], [C] and [D]: [A] is not ready, [C] answers [vol] but not
    [dir], [D] holds nothing of interest. *)
Definition windows_not_ready : World :=
  windows_host 13
    [("cmd /C vol A:", Raise "Command 'cmd /C vol A:' returned non-zero exit status 1.");
     ("cmd /C vol C:", Ok "b' Volume in drive C is SYSTEM'");
     ("cmd /C dir C:", Raise "Command 'cmd /C dir C:' returned non-zero exit status 5.");
     ("cmd /C vol D:", Ok "b' Volume in drive D is DATA'");
     ("cmd /C dir D:", Ok "b' Directory of D:\  notes.txt'")].

(** The error line of a drive whose query raises. *)
Definition probe_error_line (w : World) (d : string) : option event :=
  match win_probe w d with
  | QueryError e => Some (error_line e)
  | _ => None
  end.

(** * Properties *)

(** ** Running the pieces of the hook *)

Lemma print_error_run (e : string) (st : hook_state) :
  print_error e st = (Ok tt, failed st e).
Proof. reflexivity. Qed.

Lemma report_found (l : locals) (st : hook_state) :
  target_file_found l || target_drive_found l = true ->
  report l st = (Ok tt, uploaded st (py_str (upload_disk l))).
Proof.
  intros Hfound. unfold report. rewrite Hfound.
  unfold bind, env_Replace, print, add_events, uploaded; simpl.
  now rewrite <- app_assoc.
Qed.

Lemma report_not_found (l : locals) (st : hook_state) :
  target_file_found l || target_drive_found l = false ->
  report l st = (Ok tt, failed st "Autodetect Error").
Proof. intros Hnone. unfold report. now rewrite Hnone. Qed.

(** ** Membership tests *)

(** A [str] is never [==] to a [Path]: the test [s in paths] is false for
    every list of paths. *)
Lemma str_not_in_paths {A} (s : string) (f : A -> string) (xs : list A) :
  py_in (PStr s) (map (fun x => PPath (f x)) xs) = false.
Proof. induction xs as [|x xs IH]; simpl; [reflexivity | exact IH]. Qed.

Lemma label_not_in_subdirs (root : string) (entries : list dirent)
      (drives : list pyval) :
  subdirs root entries = Ok drives ->
  py_in (PStr target_drive) drives = false.
Proof.
  unfold subdirs. destruct (keep_dirs entries) as [dirs|e]; [|discriminate].
  intros [= <-]. apply str_not_in_paths.
Qed.

Lemma subdirs_kept (root : string) (entries dirs : list dirent) :
  keep_dirs entries = Ok dirs ->
  subdirs root entries = Ok (map (fun x => PPath (path_child root (name x))) dirs).
Proof. intros Hdirs. unfold subdirs. now rewrite Hdirs. Qed.

Lemma subdirs_raise (root : string) (entries : list dirent) (e : string) :
  keep_dirs entries = Raise e -> subdirs root entries = Raise e.
Proof. intros Hdirs. unfold subdirs. now rewrite Hdirs. Qed.

(** The entries kept are entries of the listing that are directories. *)
Lemma keep_dirs_In (entries : list dirent) :
  forall dirs x,
    keep_dirs entries = Ok dirs -> In x dirs -> In x entries /\ is_dir x = Ok true.
Proof.
  induction entries as [|y rest IH]; intros dirs x; simpl.
  - intros [= <-] [].
  - destruct (is_dir y) as [b|e] eqn:Hy; [|discriminate].
    destruct (keep_dirs rest) as [ds|e]; [|discriminate].
    intros [= <-] Hin. destruct b.
    + destruct Hin as [<-|Hin]; [auto|]. destruct (IH ds x eq_refl Hin). auto.
    + destruct (IH ds x eq_refl Hin). auto.
Qed.

Lemma py_in_file_names (t : string) (entries : list dirent) :
  py_in (PStr t) (file_names entries) = true <->
  exists x, In x entries /\ is_file x = true /\ name x = t.
Proof.
  unfold py_in, file_names. rewrite existsb_exists. split.
  - intros (v & Hv & Heq). apply in_map_iff in Hv as (x & <- & Hx).
    apply filter_In in Hx as [Hx Hfile]. simpl in Heq.
    apply String.eqb_eq in Heq. eauto.
  - intros (x & Hx & Hfile & <-). exists (PStr (name x)). split.
    + apply in_map_iff. exists x. split; [reflexivity|].
      apply filter_In. auto.
    + simpl. apply String.eqb_refl.
Qed.

(** ** Paths of subdirectories *)

Lemma is_absolute_child (root n : string) :
  is_absolute root = true -> is_absolute (path_child root n) = true.
Proof. destruct root; [discriminate | intros H; exact H]. Qed.

Lemma path_div_child (root n : string) :
  is_absolute root = true ->
  path_div root (PPath (path_child root n)) = path_child root n.
Proof.
  intros Habs. unfold path_div. simpl py_str.
  now rewrite (is_absolute_child _ n Habs).
Qed.

(** ** The file loop takes the first directory that holds the file *)

Lemma file_loop_find (w : World) (root : string) (drives : list pyval) (l : locals) :
  file_loop w root drives l =
  match find (fun d => has_file w (path_div root d)) drives with
  | Some d => set_file l (PPath (path_div root d))
  | None => l
  end.
Proof.
  induction drives as [|d rest IH]; simpl; [reflexivity|].
  unfold has_file. destruct (iterdir w (path_div root d)) as [entries|e]; [|exact IH].
  destruct (py_in (PStr target_filename) (file_names entries)); [reflexivity | exact IH].
Qed.

(** On the candidates of a root, the loop reads each subdirectory itself. *)
Lemma file_loop_candidates (w : World) (root : string) (dirs : list dirent)
      (l : locals) :
  is_absolute root = true ->
  file_loop w root (map (fun x => PPath (path_child root (name x))) dirs) l =
  match find (fun c => has_file w (py_str (cand_path c))) (posix_candidates root dirs) with
  | Some c => set_file l (cand_path c)
  | None => l
  end.
Proof.
  intros Habs. rewrite file_loop_find. unfold posix_candidates.
  induction dirs as [|x xs IH]; simpl; [reflexivity|].
  rewrite (path_div_child _ _ Habs).
  destruct (has_file w (path_child root (name x))); [|exact IH].
  simpl. now rewrite (path_div_child _ _ Habs).
Qed.

(** ** The Windows loop *)

Lemma add_events_nil (st : hook_state) : add_events st [] = st.
Proof. destruct st as [e t]. unfold add_events; simpl. now rewrite app_nil_r. Qed.

Lemma add_events_app (st : hook_state) (a b : list event) :
  add_events (add_events st a) b = add_events st (a ++ b).
Proof. unfold add_events; simpl. now rewrite app_assoc. Qed.

Lemma windows_loop_cons (w : World) (d : string) (rest : list string) (l : locals) :
  windows_loop w (d :: rest) l =
  match win_probe w d with
  | LabelMatch => ret (set_drive l (PWinPath (d +:+ ":")))
  | FileMatch => ret (set_file l (PWinPath (d +:+ ":")))
  | NoMatch => windows_loop w rest l
  | QueryError e => print ["error:" +:+ e] ;;; windows_loop w rest l
  end.
Proof.
  simpl. fold (vol_cmd d) (dir_cmd d). unfold win_probe.
  destruct (check_output w (vol_cmd d)) as [volume_info|e]; [|reflexivity].
  destruct (str_in target_drive volume_info); [reflexivity|].
  destruct (check_output w (dir_cmd d)) as [dir_info|e]; [|reflexivity].
  now destruct (str_in target_filename dir_info).
Qed.

Lemma windows_loop_run (w : World) (drives : list string) (l : locals) :
  forall st, windows_loop w drives l st =
             (Ok (win_select w drives l), add_events st (win_prints w drives)).
Proof.
  induction drives as [|d rest IH]; intros st.
  - simpl. unfold ret, win_select; simpl. now rewrite add_events_nil.
  - rewrite windows_loop_cons. unfold win_select. cbn [find win_prints].
    destruct (win_probe w d) eqn:Hp; cbn [probe_matches].
    + rewrite Hp. unfold ret. now rewrite add_events_nil.
    + rewrite Hp. unfold ret. now rewrite add_events_nil.
    + apply IH.
    + unfold bind, print. cbn [str_join]. rewrite IH, add_events_app. reflexivity.
Qed.

(** ** The hook on each system *)

(** Settles the tests of [current_OS] once the name of the system is known. *)
Ltac known_os H :=
  rewrite H;
  repeat match goal with
         | |- context [String.eqb ?a ?b] =>
             let v := eval vm_compute in (String.eqb a b) in
             change (String.eqb a b) with v
         end;
  cbv iota.

Lemma try_except_ok {A} (body : M A) (handler : string -> M A) (st st' : hook_state)
      (a : A) :
  body st = (Ok a, st') -> try_except body handler st = (Ok a, st').
Proof. intros H. unfold try_except. now rewrite H. Qed.

Lemma try_except_raise {A} (body : M A) (handler : string -> M A) (st st' : hook_state)
      (e : string) :
  body st = (Raise e, st') -> try_except body handler st = handler e st'.
Proof. intros H. unfold try_except. now rewrite H. Qed.

Lemma report_ok (l : locals) (st : hook_state) :
  report l st = (Ok tt, snd (report l st)).
Proof.
  destruct (target_file_found l || target_drive_found l) eqn:Hfound.
  - now rewrite (report_found _ _ Hfound).
  - now rewrite (report_not_found _ _ Hfound).
Qed.

(** The first candidate the hook takes on Windows: the first drive, in the
    order of [windows_drives], that [win_probe] finds to match. *)
Lemma before_upload_windows (w : World) (st : hook_state) :
  current_OS w = "Windows" ->
  before_upload w st =
  report (win_select w (windows_drives w) initial_locals)
         (add_events st (win_prints w (windows_drives w))).
Proof.
  intros Hos. unfold before_upload. rewrite report_ok. apply try_except_ok.
  unfold before_upload_body, bind. known_os Hos.
  unfold windows_branch. rewrite windows_loop_run. apply report_ok.
Qed.

Lemma posix_select_found (w : World) (cs : list candidate) :
  target_file_found (posix_select w cs) || target_drive_found (posix_select w cs) =
  match find (fun c => has_file w (py_str (cand_path c))) cs with
  | Some _ => true
  | None => false
  end.
Proof. unfold posix_select. now destruct (find _ cs). Qed.

Lemma before_upload_linux (w : World) (st : hook_state) (user : string)
      (entries dirs : list dirent) :
  current_OS w = "Linux" ->
  getuser w = Ok user ->
  iterdir w (path_child "/media" user) = Ok entries ->
  keep_dirs entries = Ok dirs ->
  before_upload w st =
  let l := posix_select w (posix_candidates (path_child "/media" user) dirs) in
  if target_file_found l || target_drive_found l
  then report l (flagged st) else report l st.
Proof.
  intros Hos Huser Hroot Hdirs. unfold before_upload. cbv zeta.
  set (l := posix_select _ _).
  assert (Hbody : before_upload_body w st =
                  if target_file_found l || target_drive_found l
                  then report l (flagged st) else report l st).
  { unfold before_upload_body, bind at 1. known_os Hos.
    unfold linux_branch, bind, lift.
    rewrite Huser, Hroot, (subdirs_kept _ _ _ Hdirs).
    rewrite (label_not_in_subdirs _ _ _ (subdirs_kept _ _ _ Hdirs)).
    rewrite file_loop_candidates by reflexivity.
    fold (posix_select w (posix_candidates (path_child "/media" user) dirs)).
    fold l. now destruct (target_file_found l || target_drive_found l). }
  destruct (target_file_found l || target_drive_found l);
    rewrite report_ok in Hbody |- *; now apply try_except_ok.
Qed.

Lemma before_upload_darwin (w : World) (st : hook_state)
      (entries dirs : list dirent) :
  current_OS w = "Darwin" ->
  iterdir w "/Volumes" = Ok entries ->
  keep_dirs entries = Ok dirs ->
  before_upload w st = report (posix_select w (posix_candidates "/Volumes" dirs)) st.
Proof.
  intros Hos Hroot Hdirs. unfold before_upload. rewrite report_ok.
  apply try_except_ok.
  unfold before_upload_body, bind. known_os Hos.
  unfold darwin_branch, bind, lift, ret.
  rewrite Hroot, (subdirs_kept _ _ _ Hdirs).
  rewrite (label_not_in_subdirs _ _ _ (subdirs_kept _ _ _ Hdirs)). simpl andb.
  rewrite file_loop_candidates by reflexivity. apply report_ok.
Qed.

Lemma before_upload_other (w : World) (st : hook_state) :
  current_OS w <> "Windows" -> current_OS w <> "Linux" -> current_OS w <> "Darwin" ->
  before_upload w st = (Ok tt, failed st "Autodetect Error").
Proof.
  intros Hw Hl Hd. unfold before_upload. apply try_except_ok.
  unfold before_upload_body, bind.
  apply String.eqb_neq in Hw, Hl, Hd. now rewrite Hw, Hl, Hd.
Qed.

(** When the enumeration itself raises, so does the body of the [try]:
    nothing was written or printed before. *)
Lemma body_enum_error (w : World) (st : hook_state) (e : string) :
  candidates w = Raise e -> before_upload_body w st = (Raise e, st).
Proof.
  unfold candidates, before_upload_body, bind. intros Hc.
  destruct (String.eqb (current_OS w) "Windows"); [discriminate|].
  destruct (String.eqb (current_OS w) "Linux").
  - unfold linux_branch, bind, lift.
    destruct (getuser w) as [user|e1]; [|congruence].
    destruct (iterdir w (path_child "/media" user)) as [entries|e1]; [|congruence].
    destruct (keep_dirs entries) as [dirs|e1] eqn:Hdirs; [discriminate|].
    rewrite (subdirs_raise _ _ _ Hdirs). congruence.
  - destruct (String.eqb (current_OS w) "Darwin"); [|discriminate].
    unfold darwin_branch, bind, lift.
    destruct (iterdir w "/Volumes") as [entries|e1]; [|congruence].
    destruct (keep_dirs entries) as [dirs|e1] eqn:Hdirs; [discriminate|].
    rewrite (subdirs_raise _ _ _ Hdirs). congruence.
Qed.

(** The handler of the hook then prints the cause and nothing else
    happens. *)
Lemma before_upload_enum_error (w : World) (st : hook_state) (e : string) :
  candidates w = Raise e ->
  before_upload w st = (Ok tt, failed st e).
Proof.
  intros Hc. unfold before_upload. rewrite <- print_error_run.
  apply try_except_raise. now apply body_enum_error.
Qed.

(** ** The outcome of the hook, in one statement *)

Lemma find_windows_candidates (w : World) (drives : list string) :
  find (fun c => probe_matches (win_probe w (cand_name c)))
       (map (fun d => {| cand_name := d; cand_path := PWinPath (d +:+ ":") |}) drives) =
  option_map (fun d => {| cand_name := d; cand_path := PWinPath (d +:+ ":") |})
             (find (fun d => probe_matches (win_probe w d)) drives).
Proof.
  induction drives as [|d rest IH]; simpl; [reflexivity|].
  now destruct (probe_matches (win_probe w d)).
Qed.

Lemma win_select_found (w : World) (drives : list string) (d : string) :
  find (fun d => probe_matches (win_probe w d)) drives = Some d ->
  let l := win_select w drives initial_locals in
  target_file_found l || target_drive_found l = true /\
  py_str (upload_disk l) = d +:+ ":".
Proof.
  intros Hfind. unfold win_select. rewrite Hfind.
  apply find_some in Hfind as [_ Hmatch].
  destruct (win_probe w d); try discriminate; simpl; auto.
Qed.

Lemma win_select_none (w : World) (drives : list string) :
  find (fun d => probe_matches (win_probe w d)) drives = None ->
  win_select w drives initial_locals = initial_locals.
Proof. intros Hfind. unfold win_select. now rewrite Hfind. Qed.

Lemma candidates_windows (w : World) :
  current_OS w = "Windows" -> candidates w = Ok (windows_candidates w).
Proof. intros Hos. unfold candidates. now known_os Hos. Qed.

Theorem before_upload_outcome (w : World) (st : hook_state) :
  before_upload w st =
  match candidates w with
  | Raise e => (Ok tt, failed st e)
  | Ok cs =>
      match find (takes w) cs with
      | Some c =>
          (Ok tt, uploaded (flag_linux w (add_events st (scan_prints w)))
                           (py_str (cand_path c)))
      | None => (Ok tt, failed (add_events st (scan_prints w)) "Autodetect Error")
      end
  end.
Proof.
  destruct (String.eqb_spec (current_OS w) "Windows") as [Hwin|Hwin].
  { (* Windows *)
    rewrite (candidates_windows _ Hwin), (before_upload_windows _ _ Hwin).
    unfold takes, scan_prints, flag_linux. known_os Hwin.
    unfold windows_candidates. rewrite find_windows_candidates.
    destruct (find _ (windows_drives w)) as [d|] eqn:Hfind; simpl option_map; cbv iota.
    - destruct (win_select_found _ _ _ Hfind) as [Hfound Hdisk].
      rewrite (report_found _ _ Hfound), Hdisk. reflexivity.
    - rewrite (win_select_none _ _ Hfind). now apply report_not_found. }
  destruct (candidates w) as [cs|e] eqn:Hcs;
    [|now apply before_upload_enum_error].
  unfold candidates in Hcs. unfold takes, scan_prints, flag_linux.
  apply String.eqb_neq in Hwin. rewrite Hwin in Hcs |- *.
  destruct (String.eqb_spec (current_OS w) "Linux") as [Hlin|Hlin].
  { (* Linux *)
    destruct (getuser w) as [user|e1] eqn:Huser; [|discriminate].
    destruct (iterdir w (path_child "/media" user)) as [entries|e1] eqn:Hroot;
      [|discriminate].
    destruct (keep_dirs entries) as [dirs|e1] eqn:Hdirs; [|discriminate].
    injection Hcs as <-. rewrite add_events_nil.
    rewrite (before_upload_linux _ _ _ _ _ Hlin Huser Hroot Hdirs). cbv zeta.
    rewrite posix_select_found. unfold posix_select.
    destruct (find _ (posix_candidates _ dirs)) as [c|].
    - now apply report_found.
    - now apply report_not_found. }
  destruct (String.eqb_spec (current_OS w) "Darwin") as [Hmac|Hmac].
  { (* macOS *)
    destruct (iterdir w "/Volumes") as [entries|e1] eqn:Hroot; [|discriminate].
    destruct (keep_dirs entries) as [dirs|e1] eqn:Hdirs; [|discriminate].
    injection Hcs as <-. rewrite add_events_nil.
    rewrite (before_upload_darwin _ _ _ _ Hmac Hroot Hdirs). unfold posix_select.
    destruct (find _ (posix_candidates _ dirs)) as [c|].
    - now apply report_found.
    - now apply report_not_found. }
  injection Hcs as <-. simpl find. rewrite add_events_nil.
  apply String.eqb_neq in Hwin. now apply before_upload_other.
Qed.

(** ** The drive letters of a bitmask *)

Lemma low_bit (b : Z) : negb (Z.land b 1 =? 0) = Z.testbit b 0.
Proof.
  rewrite Z.bit0_odd. change 1 with (Z.ones 1).
  rewrite Z.land_ones by lia. change (2 ^ 1) with 2.
  rewrite Zmod_odd. now destruct (Z.odd b).
Qed.

Lemma drive_letters_acc (letters : list string) :
  forall (b : Z) (acc : list string),
    drive_letters letters b acc = acc ++ drive_letters letters b [].
Proof.
  induction letters as [|x rest IH]; intros b acc; simpl.
  - now rewrite app_nil_r.
  - destruct (negb (Z.land b 1 =? 0)).
    + rewrite (IH _ (acc ++ [x])), (IH _ [x]). now rewrite <- app_assoc.
    + apply IH.
Qed.

Lemma drive_letters_cons (x : string) (rest : list string) (b : Z) :
  drive_letters (x :: rest) b [] =
  if Z.testbit b 0 then x :: drive_letters rest (Z.shiftr b 1) []
  else drive_letters rest (Z.shiftr b 1) [].
Proof.
  cbn [drive_letters app]. rewrite low_bit.
  destruct (Z.testbit b 0); [|reflexivity].
  now rewrite drive_letters_acc.
Qed.

(** The drives keep the order of the letters. *)
Lemma drive_letters_sublist (letters : list string) :
  forall b : Z, sublist (drive_letters letters b []) letters.
Proof.
  induction letters as [|x rest IH]; intros b.
  - constructor.
  - rewrite drive_letters_cons. destruct (Z.testbit b 0).
    + apply sublist_skip, IH.
    + apply sublist_cons, IH.
Qed.

(** A letter is a drive exactly when the bit of its position is set. *)
Lemma drive_letters_In (letters : list string) :
  forall (b : Z) (d : string),
    In d (drive_letters letters b []) <->
    exists i : nat, nth_error letters i = Some d /\ Z.testbit b (Z.of_nat i) = true.
Proof.
  induction letters as [|x rest IH]; intros b d.
  - simpl. split; [tauto|]. intros ([|i] & Hi & _); discriminate.
  - rewrite drive_letters_cons. split.
    + intros Hin.
      assert (Hrest : In d (drive_letters rest (Z.shiftr b 1) []) ->
                      exists i, nth_error (x :: rest) i = Some d /\
                                Z.testbit b (Z.of_nat i) = true).
      { intros H. apply IH in H as (i & Hi & Hbit). exists (S i). split; [exact Hi|].
        rewrite Z.shiftr_spec in Hbit by lia.
        now replace (Z.of_nat (S i)) with (Z.of_nat i + 1) by lia. }
      destruct (Z.testbit b 0) eqn:Hb0; [|auto].
      destruct Hin as [<-|Hin]; [|auto]. exists 0%nat. auto.
    + intros ([|i] & Hi & Hbit).
      * simpl in Hi. injection Hi as ->. change (Z.of_nat 0) with 0 in Hbit.
        rewrite Hbit. now left.
      * simpl in Hi.
        assert (Hin : In d (drive_letters rest (Z.shiftr b 1) [])).
        { apply IH. exists i. split; [exact Hi|].
          rewrite Z.shiftr_spec by lia.
          now replace (Z.of_nat i + 1) with (Z.of_nat (S i)) by lia. }
        destruct (Z.testbit b 0); [now right | exact Hin].
Qed.

Lemma windows_drives_sublist (w : World) :
  sublist (windows_drives w) (str_iter ascii_uppercase).
Proof. exact (drive_letters_sublist (str_iter ascii_uppercase) (GetLogicalDrives w)). Qed.

Lemma windows_drives_In (w : World) (d : string) :
  In d (windows_drives w) <->
  exists i : nat, nth_error (str_iter ascii_uppercase) i = Some d /\
                  Z.testbit (GetLogicalDrives w) (Z.of_nat i) = true.
Proof. exact (drive_letters_In (str_iter ascii_uppercase) (GetLogicalDrives w) d). Qed.

(** ** What the hook adds to the trace and to the environment *)

Lemma before_upload_ok (w : World) (st : hook_state) :
  fst (before_upload w st) = Ok tt.
Proof.
  rewrite before_upload_outcome.
  destruct (candidates w) as [cs|e]; [|reflexivity].
  now destruct (find (takes w) cs).
Qed.

Lemma before_upload_trace (w : World) (st : hook_state) :
  trace (snd (before_upload w st)) = trace st ++ hook_events w st.
Proof.
  rewrite before_upload_outcome. unfold hook_events.
  destruct (candidates w) as [cs|e]; [|reflexivity].
  destruct (find (takes w) cs) as [c|].
  - unfold flag_linux.
    destruct (String.eqb (current_OS w) "Linux"); simpl;
      unfold add_events; simpl; now rewrite <- !app_assoc.
  - simpl. unfold add_events; simpl. now rewrite <- app_assoc.
Qed.

(** Every line of the scan is an error line, never a write of the
    environment. *)
Lemma win_prints_error_lines (w : World) (drives : list string) (ev : event) :
  In ev (win_prints w drives) -> exists e, ev = error_line e.
Proof.
  induction drives as [|d rest IH]; simpl; [tauto|].
  destruct (win_probe w d); simpl; try tauto; auto.
  intros [<-|Hin]; eauto.
Qed.

Lemma scan_prints_error_lines (w : World) (ev : event) :
  In ev (scan_prints w) -> exists e, ev = error_line e.
Proof.
  unfold scan_prints. destruct (String.eqb (current_OS w) "Windows").
  - apply win_prints_error_lines.
  - intros [].
Qed.

(** The writes of the environment in one run: the upload port of the
    candidate taken and, on Linux, the upload flags with it. *)
Lemma replace_in_hook_events (w : World) (st : hook_state) (k v : string) :
  In (Replace k v) (hook_events w st) <->
  exists cs c, candidates w = Ok cs /\ find (takes w) cs = Some c /\
               ((k = "UPLOAD_PORT" /\ v = py_str (cand_path c)) \/
                (current_OS w = "Linux" /\ k = "UPLOAD_FLAGS" /\ v = "-P$UPLOAD_PORT")).
Proof.
  unfold hook_events. split.
  - destruct (candidates w) as [cs|e]; [|intros [H|[]]; discriminate].
    rewrite in_app_iff. intros [Hin|Hin].
    { apply scan_prints_error_lines in Hin as [e He]. discriminate. }
    destruct (find (takes w) cs) as [c|] eqn:Hfind;
      [|destruct Hin as [H|[]]; discriminate].
    exists cs, c. split; [reflexivity|]. split; [exact Hfind|].
    apply in_app_iff in Hin as [Hin|Hin].
    + destruct (String.eqb_spec (current_OS w) "Linux") as [Hos|Hos]; [|destruct Hin].
      destruct Hin as [Heq|[]]. injection Heq as <- <-. now right.
    + destruct Hin as [Heq|[Heq|[]]]; [|discriminate].
      injection Heq as <- <-. now left.
  - intros (cs & c & -> & -> & Hkv). apply in_app_iff. right.
    apply in_app_iff. destruct Hkv as [[-> ->]|(Hos & -> & ->)].
    + right. now left.
    + left. rewrite Hos. now left.
Qed.

Lemma before_upload_env (w : World) (st : hook_state) :
  env (snd (before_upload w st)) =
  match candidates w with
  | Raise _ => env st
  | Ok cs =>
      match find (takes w) cs with
      | Some c =>
          <["UPLOAD_PORT" := py_str (cand_path c)]>
            (if String.eqb (current_OS w) "Linux"
             then <["UPLOAD_FLAGS" := "-P$UPLOAD_PORT"]> (env st) else env st)
      | None => env st
      end
  end.
Proof.
  rewrite before_upload_outcome.
  destruct (candidates w) as [cs|e]; [|reflexivity].
  destruct (find (takes w) cs) as [c|]; [|reflexivity].
  unfold flag_linux. now destruct (String.eqb (current_OS w) "Linux").
Qed.


Lemma find_none_iff {A} (f : A -> bool) (l : list A) :
  find f l = None <-> forall x, In x l -> f x = false.
Proof.
  split; [apply find_none|].
  induction l as [|x rest IH]; intros H; simpl; [reflexivity|].
  rewrite (H x) by now left. apply IH. intros y Hy. apply H. now right.
Qed.

(** [find] skips a prefix without a match. *)
Lemma find_app_skip {A} (f : A -> bool) (pre rest : list A) :
  (forall x, In x pre -> f x = false) -> find f (pre ++ rest) = find f rest.
Proof.
  induction pre as [|x pre IH]; intros H; simpl; [reflexivity|].
  rewrite (H x) by now left. apply IH. intros y Hy. apply H. now right.
Qed.

Lemma find_first {A} (f : A -> bool) (pre post : list A) (x : A) :
  (forall y, In y pre -> f y = false) -> f x = true ->
  find f (pre ++ x :: post) = Some x.
Proof. intros Hpre Hx. rewrite find_app_skip by exact Hpre. simpl. now rewrite Hx. Qed.

(** [find] is the head of [filter]. *)
Lemma find_filter_head {A} (f : A -> bool) (l : list A) :
  find f l = hd_error (List.filter f l).
Proof.
  induction l as [|x rest IH]; simpl; [reflexivity|].
  now destruct (f x).
Qed.

(** * The claims *)

(** ** Linux: a subdirectory named after the target label *)

(** C1 (the code differs from the claim).  The claim: on Linux a
    subdirectory named exactly as the target label is selected at once, the
    upload flags are set and no other subdirectory is inspected.  The code
    tests [target_drive in drives] with a [str] against a list of [Path], which
    is false for every list: with the media root [REARM], [OTHER] and no
    [FIRMWARE.CUR] anywhere the hook reports [Autodetect Error] and writes
    nothing; when [OTHER] holds [FIRMWARE.CUR] it is [OTHER] that is inspected
    and written as the upload port. *)
Theorem linux_label_directory_not_selected :
  before_upload (linux_rearm_other []) env0 =
    (Ok tt, failed env0 "Autodetect Error") /\
  before_upload (linux_rearm_other [file_entry "FIRMWARE.CUR"]) env0 =
    (Ok tt, uploaded (flagged env0) "/media/marlin/OTHER").
Proof. split; vm_compute; reflexivity. Qed.

(** ** macOS: a volume named after the target label, no file anywhere *)

(** C2 (the code differs from the claim).  The claim: on macOS, when a
    subdirectory of [/Volumes] is named as the target label and no
    subdirectory holds the target file, the hook succeeds with the path of
    that subdirectory.  The code's test [target_drive in drives] compares a
    [str] with [Path] objects and never holds: with the volumes
    [Macintosh HD] and [REARM] and no [FIRMWARE.CUR] the hook reports
    [Autodetect Error] and leaves the environment as it was. *)
Theorem darwin_label_directory_not_selected :
  candidates darwin_rearm_only =
    Ok [ {| cand_name := "Macintosh HD"; cand_path := PPath "/Volumes/Macintosh HD" |};
         {| cand_name := "REARM"; cand_path := PPath "/Volumes/REARM" |} ] /\
  before_upload darwin_rearm_only env0 = (Ok tt, failed env0 "Autodetect Error") /\
  env (snd (before_upload darwin_rearm_only env0)) !! "UPLOAD_PORT" = None.
Proof. repeat split; vm_compute; reflexivity. Qed.

(** ** Windows: the first drive that matches, in the order of the letters *)

Lemma win_probe_label (w : World) (d : string) :
  win_probe w d = LabelMatch <->
  exists volume_info,
    check_output w (vol_cmd d) = Ok volume_info /\
    str_in target_drive volume_info = true.
Proof.
  unfold win_probe. split.
  - destruct (check_output w (vol_cmd d)) as [v|e]; [|discriminate].
    destruct (str_in target_drive v) eqn:Hlabel; [eauto|].
    destruct (check_output w (dir_cmd d)) as [di|e]; [|discriminate].
    destruct (str_in target_filename di); discriminate.
  - intros (v & -> & ->). reflexivity.
Qed.

Lemma win_probe_file (w : World) (d : string) :
  win_probe w d = FileMatch <->
  exists volume_info dir_info,
    check_output w (vol_cmd d) = Ok volume_info /\
    str_in target_drive volume_info = false /\
    check_output w (dir_cmd d) = Ok dir_info /\
    str_in target_filename dir_info = true.
Proof.
  unfold win_probe. split.
  - destruct (check_output w (vol_cmd d)) as [v|e]; [|discriminate].
    destruct (str_in target_drive v) eqn:Hlabel; [discriminate|].
    destruct (check_output w (dir_cmd d)) as [di|e]; [|discriminate].
    destruct (str_in target_filename di) eqn:Hfile; [|discriminate].
    intros _. exists v, di. auto.
  - intros (v & di & -> & -> & -> & ->). reflexivity.
Qed.

Lemma windows_first_match (w : World) (st : hook_state) (pre post : list string)
      (d : string) :
  current_OS w = "Windows" ->
  windows_drives w = pre ++ d :: post ->
  (forall x, In x pre -> probe_matches (win_probe w x) = false) ->
  probe_matches (win_probe w d) = true ->
  env (snd (before_upload w st)) = <["UPLOAD_PORT" := d +:+ ":"]> (env st).
Proof.
  intros Hos Hdrives Hpre Hd.
  rewrite before_upload_env, (candidates_windows _ Hos).
  unfold takes, windows_candidates. known_os Hos.
  rewrite find_windows_candidates, Hdrives, (find_first _ _ _ _ Hpre Hd).
  reflexivity.
Qed.

(** C3.  On Windows the drives scanned are the letters of the alphabet whose
    bit is set in the mask of logical drives, in the order of the alphabet;
    the first drive of that order that matches, by its label or by the file,
    gives the upload port, so a drive matching by the file wins over a later
    drive matching by the label; and within one drive the label decides before
    the directory is looked at: a label match needs only the answer of [vol],
    a file match needs [vol] to answer without the label. *)
Theorem windows_first_match_in_letter_order (w : World) (st : hook_state) :
  current_OS w = "Windows" ->
  sublist (windows_drives w) (str_iter ascii_uppercase) /\
  (forall d, In d (windows_drives w) <->
             exists i : nat, nth_error (str_iter ascii_uppercase) i = Some d /\
                             Z.testbit (GetLogicalDrives w) (Z.of_nat i) = true) /\
  (forall pre d post,
      windows_drives w = pre ++ d :: post ->
      (forall x, In x pre -> probe_matches (win_probe w x) = false) ->
      probe_matches (win_probe w d) = true ->
      fst (before_upload w st) = Ok tt /\
      env (snd (before_upload w st)) = <["UPLOAD_PORT" := d +:+ ":"]> (env st)) /\
  (forall pre c mid d post,
      windows_drives w = pre ++ c :: mid ++ d :: post ->
      (forall x, In x pre -> probe_matches (win_probe w x) = false) ->
      win_probe w c = FileMatch ->
      win_probe w d = LabelMatch ->
      env (snd (before_upload w st)) = <["UPLOAD_PORT" := c +:+ ":"]> (env st)) /\
  (forall d,
      (win_probe w d = LabelMatch <->
       exists volume_info,
         check_output w (vol_cmd d) = Ok volume_info /\
         str_in target_drive volume_info = true) /\
      (win_probe w d = FileMatch <->
       exists volume_info dir_info,
         check_output w (vol_cmd d) = Ok volume_info /\
         str_in target_drive volume_info = false /\
         check_output w (dir_cmd d) = Ok dir_info /\
         str_in target_filename dir_info = true)).
Proof.
  intros Hos. split; [exact (windows_drives_sublist w)|].
  split; [exact (windows_drives_In w)|].
  split; [|split].
  - intros pre d post Hdrives Hpre Hd. split; [apply before_upload_ok|].
    now apply (windows_first_match w st pre post d).
  - intros pre c mid d post Hdrives Hpre Hc _.
    apply (windows_first_match w st pre (mid ++ d :: post) c); auto.
    now rewrite Hc.
  - intros d. split; [apply win_probe_label | apply win_probe_file].
Qed.

Lemma windows_first_match_in_letter_order_witness :
  windows_drives windows_file_then_label = ["C"; "D"] /\
  win_probe windows_file_then_label "C" = FileMatch /\
  win_probe windows_file_then_label "D" = LabelMatch /\
  env (snd (before_upload windows_file_then_label env0)) =
    <["UPLOAD_PORT" := "C:"]> (env env0).
Proof.
  split; [vm_compute; reflexivity|].
  split; [vm_compute; reflexivity|].
  split; [vm_compute; reflexivity|].
  refine (proj1 (proj2 (proj2 (proj2
            (windows_first_match_in_letter_order windows_file_then_label env0 _))))
          [] "C" [] "D" [] _ _ _ _).
  - reflexivity.
  - vm_compute; reflexivity.
  - intros x [].
  - vm_compute; reflexivity.
  - vm_compute; reflexivity.
Defined.

(** ** Linux and macOS: what the scan takes *)

Lemma find_same {A} (f g : A -> bool) (l : list A) :
  (forall x, f x = g x) -> find f l = find g l.
Proof.
  intros Hfg. induction l as [|x rest IH]; simpl; [reflexivity|].
  now rewrite Hfg, IH.
Qed.

Lemma takes_posix (w : World) (c : candidate) :
  current_OS w <> "Windows" -> takes w c = contains_file w c.
Proof.
  intros Hos. apply String.eqb_neq in Hos.
  unfold takes, contains_file. now rewrite Hos.
Qed.

Lemma contains_file_posix (w : World) (c : candidate) :
  current_OS w <> "Windows" -> contains_file w c = has_file w (py_str (cand_path c)).
Proof.
  intros Hos. apply String.eqb_neq in Hos.
  unfold contains_file. now rewrite Hos.
Qed.

Lemma darwin_not_windows (w : World) :
  current_OS w = "Darwin" -> current_OS w <> "Windows".
Proof. intros ->. discriminate. Qed.

Lemma linux_not_windows (w : World) :
  current_OS w = "Linux" -> current_OS w <> "Windows".
Proof. intros ->. discriminate. Qed.

(** On macOS the hook writes the path of the first candidate that holds the
    file, and fails when there is none. *)
Lemma before_upload_darwin_find (w : World) (st : hook_state) (cs : list candidate) :
  current_OS w = "Darwin" ->
  candidates w = Ok cs ->
  before_upload w st =
  match find (contains_file w) cs with
  | Some c => (Ok tt, uploaded st (py_str (cand_path c)))
  | None => (Ok tt, failed st "Autodetect Error")
  end.
Proof.
  intros Hos Hcs. rewrite before_upload_outcome, Hcs.
  rewrite (find_same (takes w) (contains_file w))
    by (intros c; apply takes_posix, darwin_not_windows, Hos).
  unfold scan_prints, flag_linux. known_os Hos. now rewrite add_events_nil.
Qed.

(** C4 as the claim states it, refuted: it is not so that, whenever two or
    more subdirectories of [/Volumes] hold the target file, the upload port is
    the path of the last of them.  With [DISK_A] and [DISK_B] both holding
    [FIRMWARE.CUR] the hook writes [/Volumes/DISK_A]. *)
Lemma darwin_last_file_match_refuted :
  ~ (forall (w : World) (st : hook_state) (cs : list candidate)
            (c0 : candidate) (mid : list candidate) (c : candidate),
        current_OS w = "Darwin" ->
        candidates w = Ok cs ->
        List.filter (contains_file w) cs = c0 :: mid ++ [c] ->
        env (snd (before_upload w st)) !! "UPLOAD_PORT" = Some (py_str (cand_path c))).
Proof.
  intros Hclaim.
  pose proof
    (Hclaim darwin_two_firmware env0
       [ {| cand_name := "DISK_A"; cand_path := PPath "/Volumes/DISK_A" |};
         {| cand_name := "DISK_B"; cand_path := PPath "/Volumes/DISK_B" |} ]
       {| cand_name := "DISK_A"; cand_path := PPath "/Volumes/DISK_A" |}
       []
       {| cand_name := "DISK_B"; cand_path := PPath "/Volumes/DISK_B" |}
       eq_refl
       ltac:(vm_compute; reflexivity)
       ltac:(vm_compute; reflexivity)) as Hlast.
  vm_compute in Hlast. discriminate Hlast.
Qed.

(** C4, amended.  On macOS, when one or more subdirectories of [/Volumes]
    hold the target file (and can be listed), the hook succeeds and the upload
    port is the path of the first of them in the order of enumeration: the
    scan ends at the first file match. *)
Theorem darwin_first_file_match_wins (w : World) (st : hook_state)
        (cs : list candidate) (c : candidate) (others : list candidate) :
  current_OS w = "Darwin" ->
  candidates w = Ok cs ->
  List.filter (contains_file w) cs = c :: others ->
  before_upload w st = (Ok tt, uploaded st (py_str (cand_path c))).
Proof.
  intros Hos Hcs Hfilter.
  rewrite (before_upload_darwin_find _ _ _ Hos Hcs), find_filter_head, Hfilter.
  reflexivity.
Qed.

Lemma darwin_first_file_match_wins_witness :
  before_upload darwin_two_firmware env0 = (Ok tt, uploaded env0 "/Volumes/DISK_A").
Proof.
  exact (darwin_first_file_match_wins darwin_two_firmware env0
           [ {| cand_name := "DISK_A"; cand_path := PPath "/Volumes/DISK_A" |};
             {| cand_name := "DISK_B"; cand_path := PPath "/Volumes/DISK_B" |} ]
           {| cand_name := "DISK_A"; cand_path := PPath "/Volumes/DISK_A" |}
           [ {| cand_name := "DISK_B"; cand_path := PPath "/Volumes/DISK_B" |} ]
           eq_refl
           ltac:(vm_compute; reflexivity)
           ltac:(vm_compute; reflexivity)).
Defined.

(** C5 as the claim states it, refuted: it is not so that, whenever a
    subdirectory of [/Volumes] is named as the target label and a subdirectory
    that holds the target file comes later, the upload port is the path of
    that later subdirectory.  With [REARM] holding [FIRMWARE.CUR] itself and
    [DISK_B] after it, the hook writes [/Volumes/REARM], the path of the
    label-named subdirectory. *)
Lemma darwin_later_file_match_refuted :
  ~ (forall (w : World) (st : hook_state) (pre mid post : list candidate)
            (cl cf : candidate),
        current_OS w = "Darwin" ->
        candidates w = Ok (pre ++ cl :: mid ++ cf :: post) ->
        label_matches w cl = true ->
        contains_file w cf = true ->
        env (snd (before_upload w st)) !! "UPLOAD_PORT" = Some (py_str (cand_path cf))).
Proof.
  intros Hclaim.
  pose proof
    (Hclaim darwin_label_holds_file env0 [] [] []
       {| cand_name := "REARM"; cand_path := PPath "/Volumes/REARM" |}
       {| cand_name := "DISK_B"; cand_path := PPath "/Volumes/DISK_B" |}
       eq_refl
       ltac:(vm_compute; reflexivity)
       ltac:(vm_compute; reflexivity)
       ltac:(vm_compute; reflexivity)) as Hlater.
  vm_compute in Hlater. discriminate Hlater.
Qed.

(** The same with a file match before the label-named subdirectory: the
    hook writes [/Volumes/DISK_A], not the later [/Volumes/DISK_B]. *)
Lemma darwin_file_before_label :
  before_upload darwin_file_label_file env0 = (Ok tt, uploaded env0 "/Volumes/DISK_A") /\
  before_upload darwin_label_holds_file env0 = (Ok tt, uploaded env0 "/Volumes/REARM").
Proof. split; vm_compute; reflexivity. Qed.

(** C5, amended.  On macOS, when a subdirectory of [/Volumes] is named as
    the target label, a subdirectory that holds the target file comes later in
    the enumeration, and no subdirectory before that one (the label-named one
    included) holds the target file, the hook succeeds with the path of the
    file-holding subdirectory, which is not the path of the label-named
    one. *)
Theorem darwin_first_file_match_over_label (w : World) (st : hook_state)
        (pre mid post : list candidate) (cl cf : candidate) :
  current_OS w = "Darwin" ->
  candidates w = Ok (pre ++ cl :: mid ++ cf :: post) ->
  label_matches w cl = true ->
  contains_file w cf = true ->
  (forall x, In x (pre ++ cl :: mid) -> contains_file w x = false) ->
  before_upload w st = (Ok tt, uploaded st (py_str (cand_path cf))) /\
  env (snd (before_upload w st)) !! "UPLOAD_PORT" = Some (py_str (cand_path cf)) /\
  py_str (cand_path cf) <> py_str (cand_path cl).
Proof.
  intros Hos Hcs _ Hcf Hbefore.
  assert (Hrun : before_upload w st = (Ok tt, uploaded st (py_str (cand_path cf)))).
  { rewrite (before_upload_darwin_find _ _ _ Hos Hcs).
    replace (pre ++ cl :: mid ++ cf :: post) with ((pre ++ cl :: mid) ++ cf :: post)
      by now rewrite <- app_assoc.
    now rewrite (find_first _ _ _ _ Hbefore Hcf). }
  split; [exact Hrun|]. split.
  - rewrite Hrun. apply lookup_insert_eq.
  - intros Heq.
    assert (Hcl : contains_file w cl = false)
      by (apply Hbefore, in_app_iff; right; now left).
    rewrite contains_file_posix in Hcf, Hcl by now apply darwin_not_windows.
    rewrite Heq in Hcf. congruence.
Qed.

Lemma darwin_first_file_match_over_label_witness :
  before_upload darwin_label_then_file env0 = (Ok tt, uploaded env0 "/Volumes/DISK_B") /\
  env (snd (before_upload darwin_label_then_file env0)) !! "UPLOAD_PORT" =
    Some "/Volumes/DISK_B" /\
  "/Volumes/DISK_B" <> "/Volumes/REARM".
Proof.
  refine (darwin_first_file_match_over_label darwin_label_then_file env0 [] [] []
            {| cand_name := "REARM"; cand_path := PPath "/Volumes/REARM" |}
            {| cand_name := "DISK_B"; cand_path := PPath "/Volumes/DISK_B" |}
            eq_refl _ _ _ _).
  - vm_compute; reflexivity.
  - vm_compute; reflexivity.
  - vm_compute; reflexivity.
  - intros x [<-|[]]. vm_compute; reflexivity.
Defined.

(** ** No candidate matches *)



(** ** Linux: the upload flags *)


(** ** A candidate whose query raises *)

Lemma takes_same_answers (w w' : World) (c : candidate) :
  current_OS w' = current_OS w -> same_answers w w' c -> takes w c = takes w' c.
Proof.
  intros Hos (Hvol & Hdir & Hlist).
  unfold takes, win_probe, has_file. now rewrite Hos, Hvol, Hdir, Hlist.
Qed.

Lemma query_error_not_taken (w : World) (c : candidate) :
  query_error w c -> takes w c = false.
Proof.
  unfold query_error, takes, has_file.
  destruct (String.eqb (current_OS w) "Windows"); intros [e ->]; reflexivity.
Qed.

Lemma find_same_in {A} (f g : A -> bool) (l : list A) :
  (forall x, In x l -> f x = g x) -> find f l = find g l.
Proof.
  induction l as [|x rest IH]; intros Hfg; simpl; [reflexivity|].
  rewrite (Hfg x) by now left.
  rewrite IH; [reflexivity|]. intros y Hy. apply Hfg. now right.
Qed.

Lemma find_skip_one {A} (f : A -> bool) (pre post : list A) (d : A) :
  f d = false -> find f (pre ++ d :: post) = find f (pre ++ post).
Proof.
  intros Hd. induction pre as [|x pre IH]; simpl.
  - now rewrite Hd.
  - now rewrite IH.
Qed.

Lemma win_prints_error_of (w : World) (pre post : list string) (d e : string) :
  (forall x, In x pre -> probe_matches (win_probe w x) = false) ->
  win_probe w d = QueryError e ->
  In (error_line e) (win_prints w (pre ++ d :: post)).
Proof.
  intros Hpre Hd. induction pre as [|x pre IH]; simpl.
  - rewrite Hd. now left.
  - pose proof (Hpre x (or_introl eq_refl)) as Hx.
    assert (IH' : In (error_line e) (win_prints w (pre ++ d :: post)))
      by (apply IH; intros y Hy; apply Hpre; now right).
    destruct (win_probe w x); try discriminate Hx; [exact IH' | now right].
Qed.

Lemma drives_of_candidates (drives : list string) :
  map cand_name
      (map (fun d => {| cand_name := d; cand_path := PWinPath (d +:+ ":") |}) drives) =
  drives.
Proof. induction drives as [|d rest IH]; simpl; [reflexivity | now rewrite IH]. Qed.

(** On Windows the drives are the names of the candidates. *)
Lemma windows_drives_of_candidates (w : World) (cs : list candidate) :
  current_OS w = "Windows" -> candidates w = Ok cs ->
  windows_drives w = map cand_name cs.
Proof.
  intros Hos Hcs. rewrite (candidates_windows _ Hos) in Hcs.
  assert (Heq : windows_candidates w = cs) by congruence.
  rewrite <- Heq. unfold windows_candidates.
  generalize (windows_drives w). intros drives.
  now rewrite drives_of_candidates.
Qed.

(** C8 as the claim states it, refuted: it is not so that an error on one
    candidate never fails the resolution by itself.  On Linux, [is_dir()] on
    the entries of the media root is called outside the handlers of the loop:
    with the entry [STALE], on which it raises, and the subdirectory [OTHER2],
    which holds [FIRMWARE.CUR], the scan ends at [STALE] and the hook writes no
    upload port. *)
Lemma entry_error_aborts_scan :
  ~ (forall (w : World) (st : hook_state) (user : string) (entries : list dirent)
            (d m : dirent) (e : string),
        current_OS w = "Linux" ->
        getuser w = Ok user ->
        iterdir w (path_child "/media" user) = Ok entries ->
        In d entries -> is_dir d = Raise e ->
        In m entries -> is_dir m = Ok true ->
        has_file w (path_child (path_child "/media" user) (name m)) = true ->
        exists p, env (snd (before_upload w st)) !! "UPLOAD_PORT" = Some p).
Proof.
  intros Hclaim.
  destruct
    (Hclaim linux_stale_then_file env0 "marlin"
       [stale_entry "STALE"
          "[Errno 107] Transport endpoint is not connected: '/media/marlin/STALE'";
        dir_entry "OTHER2"]
       (stale_entry "STALE"
          "[Errno 107] Transport endpoint is not connected: '/media/marlin/STALE'")
       (dir_entry "OTHER2")
       "[Errno 107] Transport endpoint is not connected: '/media/marlin/STALE'"
       eq_refl eq_refl
       ltac:(vm_compute; reflexivity)
       ltac:(now left)
       eq_refl
       ltac:(right; now left)
       eq_refl
       ltac:(vm_compute; reflexivity)) as [p Hp].
  vm_compute in Hp. discriminate Hp.
Qed.

(** C8, amended.  On every system a candidate whose own query raises
    ([vol] or [dir] of a drive on Windows, the listing of the subdirectory on
    Linux and macOS) is left out and nothing more.  The hook returns; it takes
    the same candidate, writes the same environment and prints the same final
    report as on a host where that candidate is absent (only error lines of
    the scan may differ, and on Linux and macOS the two runs are equal); the
    scan goes on with the remaining candidates, so that the first of them that
    matches is written as the upload port; and on Windows the line
    [error:...] of the failed query is printed when no earlier drive
    matches. *)
Theorem candidate_error_only_excludes (w w' : World) (st : hook_state)
        (pre post : list candidate) (d : candidate) :
  current_OS w' = current_OS w ->
  candidates w = Ok (pre ++ d :: post) ->
  candidates w' = Ok (pre ++ post) ->
  (forall c, In c (pre ++ post) -> same_answers w w' c) ->
  query_error w d ->
  fst (before_upload w st) = Ok tt /\
  find (takes w) (pre ++ d :: post) = find (takes w') (pre ++ post) /\
  env (snd (before_upload w st)) = env (snd (before_upload w' st)) /\
  (exists errors errors' report,
      trace (snd (before_upload w st)) = trace st ++ errors ++ report /\
      trace (snd (before_upload w' st)) = trace st ++ errors' ++ report /\
      (forall ev, In ev errors -> exists e, ev = error_line e) /\
      (forall ev, In ev errors' -> exists e, ev = error_line e)) /\
  (current_OS w <> "Windows" -> before_upload w st = before_upload w' st) /\
  (forall post1 m post2,
      post = post1 ++ m :: post2 ->
      (forall x, In x (pre ++ post1) -> takes w x = false) ->
      takes w m = true ->
      env (snd (before_upload w st)) !! "UPLOAD_PORT" = Some (py_str (cand_path m))) /\
  (forall e,
      current_OS w = "Windows" ->
      (forall x, In x pre -> takes w x = false) ->
      win_probe w (cand_name d) = QueryError e ->
      exists evs,
        trace (snd (before_upload w st)) = trace st ++ evs /\ In (error_line e) evs).
Proof.
  intros Hos Hcs Hcs' Hsame Herr.
  assert (Hd : takes w d = false) by now apply query_error_not_taken.
  assert (Hfind : find (takes w) (pre ++ d :: post) = find (takes w') (pre ++ post)).
  { rewrite find_skip_one by exact Hd.
    apply find_same_in. intros c Hc. apply takes_same_answers; auto. }
  split; [apply before_upload_ok|]. split; [exact Hfind|].
  split; [|split; [|split; [|split]]].
  - rewrite !before_upload_env, Hcs, Hcs', Hfind, Hos. reflexivity.
  - rewrite !before_upload_trace. unfold hook_events.
    rewrite Hcs, Hcs', Hfind, Hos.
    exists (scan_prints w), (scan_prints w'). eexists.
    split; [reflexivity|]. split; [reflexivity|].
    split; apply scan_prints_error_lines.
  - intros Hposix. apply String.eqb_neq in Hposix.
    rewrite !before_upload_outcome, Hcs, Hcs', Hfind.
    unfold scan_prints, flag_linux. rewrite Hos, Hposix. reflexivity.
  - intros post1 m post2 -> Hnone Hm.
    rewrite before_upload_env, Hcs, find_skip_one by exact Hd.
    rewrite app_assoc, (find_first _ _ _ _ Hnone Hm).
    apply lookup_insert_eq.
  - intros e Hwin Hpre He. exists (hook_events w st).
    split; [apply before_upload_trace|].
    unfold hook_events. rewrite Hcs. apply in_app_iff. left.
    unfold scan_prints. rewrite (windows_drives_of_candidates _ _ Hwin Hcs).
    known_os Hwin. rewrite map_app. cbn [map].
    apply win_prints_error_of; [|exact He].
    intros x Hx. apply in_map_iff in Hx as (c & <- & Hc).
    specialize (Hpre c Hc). unfold takes in Hpre. now rewrite Hwin in Hpre.
Qed.

Lemma candidate_error_only_excludes_witness :
  (env (snd (before_upload windows_errors_then_label env0)) !! "UPLOAD_PORT" = Some "D:" /\
   exists evs,
     trace (snd (before_upload windows_errors_then_label env0)) = trace env0 ++ evs /\
     In (error_line "Command 'cmd /C dir C:' returned non-zero exit status 5.") evs) /\
  before_upload linux_locked_then_file env0 = before_upload linux_file_only env0.
Proof.
  split.
  - assert (Hwin :
      let w := windows_errors_then_label in
      let d := {| cand_name := "C"; cand_path := PWinPath "C:" |} in
      (forall post1 m post2,
          [ {| cand_name := "D"; cand_path := PWinPath "D:" |} ] = post1 ++ m :: post2 ->
          (forall x, In x ([ {| cand_name := "A"; cand_path := PWinPath "A:" |} ] ++ post1) ->
                     takes w x = false) ->
          takes w m = true ->
          env (snd (before_upload w env0)) !! "UPLOAD_PORT" = Some (py_str (cand_path m))) /\
      (forall e,
          current_OS w = "Windows" ->
          (forall x, In x [ {| cand_name := "A"; cand_path := PWinPath "A:" |} ] ->
                     takes w x = false) ->
          win_probe w (cand_name d) = QueryError e ->
          exists evs,
            trace (snd (before_upload w env0)) = trace env0 ++ evs /\
            In (error_line e) evs)).
    { refine (proj2 (proj2 (proj2 (proj2 (proj2
                (candidate_error_only_excludes
                   windows_errors_then_label windows_errors_then_label_less env0
                   [ {| cand_name := "A"; cand_path := PWinPath "A:" |} ]
                   [ {| cand_name := "D"; cand_path := PWinPath "D:" |} ]
                   {| cand_name := "C"; cand_path := PWinPath "C:" |}
                   eq_refl _ _ _ _)))))).
      - vm_compute; reflexivity.
      - vm_compute; reflexivity.
      - intros c [<-|[<-|[]]]; repeat split; vm_compute; reflexivity.
      - exists "Command 'cmd /C dir C:' returned non-zero exit status 5.".
        vm_compute; reflexivity. }
    destruct Hwin as [Hlater Hline]. split.
    + refine (Hlater [] {| cand_name := "D"; cand_path := PWinPath "D:" |} [] eq_refl _ _).
      * intros x [<-|[]]. vm_compute; reflexivity.
      * vm_compute; reflexivity.
    + refine (Hline _ eq_refl _ _).
      * intros x [<-|[]]. vm_compute; reflexivity.
      * vm_compute; reflexivity.
  - refine (proj1 (proj2 (proj2 (proj2 (proj2
              (candidate_error_only_excludes linux_locked_then_file linux_file_only env0
                 []
                 [ {| cand_name := "OTHER2"; cand_path := PPath "/media/marlin/OTHER2" |} ]
                 {| cand_name := "LOCKED"; cand_path := PPath "/media/marlin/LOCKED" |}
                 eq_refl _ _ _ _))))) _).
    + vm_compute; reflexivity.
    + vm_compute; reflexivity.
    + intros c [<-|[]]. repeat split; vm_compute; reflexivity.
    + exists "[Errno 13] Permission denied: '/media/marlin/LOCKED'".
      vm_compute; reflexivity.
    + discriminate.
Defined.

(** ** Nothing escapes the hook *)

Lemma body_enumerated (w : World) (st : hook_state) (cs : list candidate) :
  candidates w = Ok cs -> fst (before_upload_body w st) = Ok tt.
Proof.
  unfold candidates, before_upload_body, bind. intros Hc.
  destruct (String.eqb (current_OS w) "Windows").
  { unfold windows_branch. rewrite windows_loop_run, report_ok. reflexivity. }
  destruct (String.eqb (current_OS w) "Linux").
  { unfold linux_branch, bind, lift.
    destruct (getuser w) as [user|e1]; [|discriminate].
    destruct (iterdir w (path_child "/media" user)) as [entries|e1]; [|discriminate].
    destruct (keep_dirs entries) as [dirs|e1] eqn:Hdirs; [|discriminate].
    rewrite (subdirs_kept _ _ _ Hdirs).
    set (l := if py_in _ _ then _ else _).
    destruct (target_file_found l || target_drive_found l);
      unfold env_Replace, ret; rewrite report_ok; reflexivity. }
  destruct (String.eqb (current_OS w) "Darwin").
  { unfold darwin_branch, bind, lift.
    destruct (iterdir w "/Volumes") as [entries|e1]; [|discriminate].
    destruct (keep_dirs entries) as [dirs|e1] eqn:Hdirs; [|discriminate].
    rewrite (subdirs_kept _ _ _ Hdirs).
    unfold ret. rewrite report_ok. reflexivity. }
  unfold ret. rewrite report_ok. reflexivity.
Qed.

(** The body of the [try] raises exactly when the enumeration of the
    candidates does, with the same cause and before anything was written or
    printed. *)
Lemma body_raise_iff (w : World) (st st' : hook_state) (e : string) :
  before_upload_body w st = (Raise e, st') <-> candidates w = Raise e /\ st' = st.
Proof.
  split.
  - intros Hbody. destruct (candidates w) as [cs|e0] eqn:Hcs.
    + pose proof (body_enumerated w st cs Hcs) as Hok.
      rewrite Hbody in Hok. discriminate.
    + rewrite (body_enum_error _ _ _ Hcs) in Hbody. now injection Hbody as -> ->.
  - intros [Hcs ->]. now apply body_enum_error.
Qed.

(** The diagnostic carries the cause between its parentheses. *)
Lemma print_error_text_cause (e p : string) :
  print_error_text e p =
  (LF +:+ "Unable to find destination disk (") +:+ e +:+
  (")" +:+ LF +:+
   "Please select it in platformio.ini using the upload_port keyword " +:+
   "(https://docs.platformio.org/en/latest/projectconf/section_env_upload.html) " +:+
   "or copy the firmware (.pio/build/" +:+ p +:+
   "/firmware.bin) manually to the appropriate disk" +:+ LF).
Proof. reflexivity. Qed.

(** C9.  The hook never raises to its caller: for every host and every
    build environment it returns.  An error that no candidate's handler takes
    reaches the handler of the hook, which prints one diagnostic carrying the
    text of the cause and changes nothing else; in the model this is the case
    exactly when the enumeration raises, as for a media root that is missing
    or cannot be read. *)
Theorem hook_never_raises (w : World) (st : hook_state) :
  fst (before_upload w st) = Ok tt /\
  (forall e st',
      before_upload_body w st = (Raise e, st') ->
      candidates w = Raise e /\
      before_upload w st =
        (Ok tt, add_events st' [Print (print_error_text e (pioenv st') +:+ LF)])) /\
  (forall e,
      candidates w = Raise e ->
      before_upload_body w st = (Raise e, st) /\
      env (snd (before_upload w st)) = env st /\
      trace (snd (before_upload w st)) =
        trace st ++ [Print (print_error_text e (pioenv st) +:+ LF)]) /\
  (forall e p, exists before after, print_error_text e p = before +:+ e +:+ after).
Proof.
  split; [apply before_upload_ok|]. split; [|split].
  - intros e st' Hbody. split; [now apply (body_raise_iff w st st' e)|].
    unfold before_upload. now rewrite (try_except_raise _ _ _ _ _ Hbody).
  - intros e Hcs. split; [now apply body_enum_error|].
    now rewrite (before_upload_enum_error _ _ _ Hcs).
  - intros e p. rewrite print_error_text_cause. eauto.
Qed.

Lemma hook_never_raises_witness :
  before_upload linux_no_media_root env0 =
    (Ok tt,
     add_events env0
       [Print (print_error_text "[Errno 2] No such file or directory: '/media/marlin'"
                                "LPC1768" +:+ LF)]).
Proof.
  refine (proj2 (proj1 (proj2 (hook_never_raises linux_no_media_root env0))
                   "[Errno 2] No such file or directory: '/media/marlin'" env0 _)).
  vm_compute; reflexivity.
Defined.

(** ** The path written is the path of a candidate *)

Lemma str_iter_single (s d : string) :
  In d (str_iter s) -> exists ch, d = String ch EmptyString.
Proof.
  induction s as [|c s IH]; simpl; [tauto|].
  intros [<-|Hin]; eauto.
Qed.

Lemma drive_name_not_sentinel (ch : ascii) :
  String ch EmptyString +:+ ":" <> py_str (upload_disk initial_locals).
Proof. simpl. intros H. injection H as _ H. discriminate H. Qed.

Lemma absolute_not_sentinel (p : string) :
  is_absolute p = true -> p <> py_str (upload_disk initial_locals).
Proof. intros Habs ->. discriminate Habs. Qed.

Lemma posix_candidates_In (root : string) (entries dirs : list dirent)
      (c : candidate) :
  keep_dirs entries = Ok dirs ->
  In c (posix_candidates root dirs) ->
  exists x, In x entries /\ is_dir x = Ok true /\
            c = {| cand_name := name x; cand_path := PPath (path_child root (name x)) |}.
Proof.
  unfold posix_candidates. intros Hdirs Hin.
  apply in_map_iff in Hin as (x & <- & Hx).
  destruct (keep_dirs_In _ _ _ Hdirs Hx) as [Hentry Hdir]. eauto.
Qed.

Lemma windows_candidates_In (w : World) (c : candidate) :
  In c (windows_candidates w) ->
  exists d, In d (windows_drives w) /\
            c = {| cand_name := d; cand_path := PWinPath (d +:+ ":") |}.
Proof.
  unfold windows_candidates. generalize (windows_drives w). intros drives Hin.
  apply in_map_iff in Hin as (d & <- & Hd). eauto.
Qed.

Lemma candidates_enumerated (w : World) (cs : list candidate) (c : candidate) :
  candidates w = Ok cs -> In c cs ->
  enumerated w c /\ py_str (cand_path c) <> py_str (upload_disk initial_locals).
Proof.
  intros Hcs Hin. unfold enumerated.
  destruct (String.eqb_spec (current_OS w) "Windows") as [Hwin|Hwin].
  { rewrite (candidates_windows _ Hwin) in Hcs.
    assert (Hcs' : cs = windows_candidates w) by congruence.
    rewrite Hcs' in Hin.
    destruct (windows_candidates_In w c Hin) as (d & Hd & Hc).
    rewrite Hc. clear Hc Hin Hcs Hcs'.
    destruct (proj1 (windows_drives_In w d) Hd) as (i & Hi & Hbit). split.
    - left. cbn [cand_name cand_path].
      split; [exact Hwin|]. split; [reflexivity|]. exists i. split; assumption.
    - destruct (str_iter_single ascii_uppercase d (nth_error_In _ _ Hi)) as [ch ->].
      apply drive_name_not_sentinel. }
  unfold candidates in Hcs. apply String.eqb_neq in Hwin. rewrite Hwin in Hcs.
  destruct (String.eqb_spec (current_OS w) "Linux") as [Hlin|Hlin].
  { destruct (getuser w) as [user|e] eqn:Huser; [|discriminate].
    destruct (iterdir w (path_child "/media" user)) as [entries|e] eqn:Hroot;
      [|discriminate].
    destruct (keep_dirs entries) as [dirs|e] eqn:Hdirs; [|discriminate].
    injection Hcs as <-.
    apply (posix_candidates_In _ _ _ _ Hdirs) in Hin as (x & Hx & Hdir & ->).
    split.
    - right. left. split; [exact Hlin|]. exists user, entries, x. simpl. auto 8.
    - now apply absolute_not_sentinel. }
  destruct (String.eqb_spec (current_OS w) "Darwin") as [Hmac|Hmac].
  { destruct (iterdir w "/Volumes") as [entries|e] eqn:Hroot; [|discriminate].
    destruct (keep_dirs entries) as [dirs|e] eqn:Hdirs; [|discriminate].
    injection Hcs as <-.
    apply (posix_candidates_In _ _ _ _ Hdirs) in Hin as (x & Hx & Hdir & ->).
    split.
    - right. right. split; [exact Hmac|]. exists entries, x. simpl. auto 8.
    - now apply absolute_not_sentinel. }
  injection Hcs as <-. destruct Hin.
Qed.

(** C10.  Whenever the hook writes the upload port, the path written is
    that of a candidate enumerated on the current system: a letter of the
    alphabet whose bit is set in the mask of logical drives (followed by a
    colon) on Windows, a subdirectory of the media root of the user on Linux,
    a subdirectory of [/Volumes] on macOS; it is the value the environment
    holds afterwards and it is never the initial [Disk not found]. *)
Theorem written_port_is_candidate (w : World) (st : hook_state) (p : string)
        (evs : list event) :
  trace (snd (before_upload w st)) = trace st ++ evs ->
  In (Replace "UPLOAD_PORT" p) evs ->
  exists cs c,
    candidates w = Ok cs /\ In c cs /\
    p = py_str (cand_path c) /\
    enumerated w c /\
    env (snd (before_upload w st)) !! "UPLOAD_PORT" = Some p /\
    p <> py_str (upload_disk initial_locals).
Proof.
  intros Htrace Hin.
  rewrite before_upload_trace in Htrace. apply app_inv_head in Htrace as <-.
  apply replace_in_hook_events in Hin as (cs & c & Hcs & Hfind & Hkv).
  destruct Hkv as [[_ ->]|(_ & Hk & _)]; [|discriminate Hk].
  destruct (find_some _ _ Hfind) as [Hc _].
  destruct (candidates_enumerated _ _ _ Hcs Hc) as [Henum Hsentinel].
  exists cs, c. repeat split; auto.
  rewrite before_upload_env, Hcs, Hfind. apply lookup_insert_eq.
Qed.

Lemma written_port_is_candidate_witness :
  exists cs c,
    candidates windows_file_then_label = Ok cs /\ In c cs /\
    "C:" = py_str (cand_path c) /\
    enumerated windows_file_then_label c /\
    env (snd (before_upload windows_file_then_label env0)) !! "UPLOAD_PORT" = Some "C:" /\
    "C:" <> "Disk not found".
Proof.
  refine (written_port_is_candidate windows_file_then_label env0 "C:"
            [Replace "UPLOAD_PORT" "C:"; Print (success_text "C:")] _ _).
  - vm_compute; reflexivity.
  - now left.
Defined.

(** * Further properties of the hook *)

(** ** The logical drives *)

Lemma drive_letters_same_bits (letters : list string) :
  forall b b' : Z,
    (forall i : nat, (i < length letters)%nat ->
                     Z.testbit b (Z.of_nat i) = Z.testbit b' (Z.of_nat i)) ->
    drive_letters letters b [] = drive_letters letters b' [].
Proof.
  induction letters as [|x rest IH]; intros b b' Hbits; [reflexivity|].
  rewrite !drive_letters_cons.
  assert (Hlow : Z.testbit b 0 = Z.testbit b' 0) by (apply (Hbits 0%nat); simpl; lia).
  rewrite Hlow, (IH (Z.shiftr b 1) (Z.shiftr b' 1)).
  - reflexivity.
  - intros i Hi. rewrite !Z.shiftr_spec by lia.
    replace (Z.of_nat i + 1) with (Z.of_nat (S i)) by lia.
    apply Hbits. simpl. lia.
Qed.

Lemma alphabet_NoDup : NoDup (str_iter ascii_uppercase).
Proof.
  apply (bool_decide_unpack (NoDup (str_iter ascii_uppercase))).
  vm_compute. exact I.
Qed.

(** X1.  The drives tried on Windows depend on the low 26 bits of the mask
    of logical drives only: two hosts whose masks agree on the bits 0 to 25
    get the same drives.  There are at most 26 of them and none comes
    twice. *)
Theorem windows_drives_low_bits (w w' : World) :
  (forall i : nat, (i < 26)%nat ->
     Z.testbit (GetLogicalDrives w) (Z.of_nat i) =
     Z.testbit (GetLogicalDrives w') (Z.of_nat i)) ->
  windows_drives w = windows_drives w' /\
  (length (windows_drives w) <= 26)%nat /\
  NoDup (windows_drives w).
Proof.
  intros Hbits. split; [|split].
  - exact (drive_letters_same_bits (str_iter ascii_uppercase) _ _ Hbits).
  - exact (sublist_length _ _ (windows_drives_sublist w)).
  - exact (sublist_NoDup _ _ alphabet_NoDup (windows_drives_sublist w)).
Qed.

Lemma windows_drives_low_bits_witness :
  windows_drives windows_file_then_label = windows_drives windows_high_bit /\
  (length (windows_drives windows_file_then_label) <= 26)%nat /\
  NoDup (windows_drives windows_file_then_label).
Proof.
  apply (windows_drives_low_bits windows_file_then_label windows_high_bit).
  intros i Hi.
  do 26 (destruct i as [|i]; [vm_compute; reflexivity|]).
  lia.
Defined.

(** ** Linux: the file search *)

(** X2.  On Linux, when the media root is enumerated, the hook takes the
    first subdirectory, in the order of enumeration, that can be listed and
    holds a file named [FIRMWARE.CUR]: it sets the upload flags, then writes
    the path of that subdirectory as the upload port and prints it. *)
Theorem linux_first_file_match_wins (w : World) (st : hook_state)
        (pre post : list candidate) (c : candidate) :
  current_OS w = "Linux" ->
  candidates w = Ok (pre ++ c :: post) ->
  (forall x, In x pre -> has_file w (py_str (cand_path x)) = false) ->
  has_file w (py_str (cand_path c)) = true ->
  before_upload w st = (Ok tt, uploaded (flagged st) (py_str (cand_path c))).
Proof.
  intros Hos Hcs Hpre Hc.
  rewrite before_upload_outcome, Hcs.
  rewrite (find_same (takes w) (fun x => has_file w (py_str (cand_path x)))).
  - rewrite (find_first _ _ _ _ Hpre Hc).
    unfold flag_linux, scan_prints. known_os Hos. now rewrite add_events_nil.
  - intros x. rewrite takes_posix by now apply linux_not_windows.
    apply contains_file_posix. now apply linux_not_windows.
Qed.

Lemma linux_first_file_match_wins_witness :
  before_upload linux_file_in_second env0 =
    (Ok tt, uploaded (flagged env0) "/media/marlin/OTHER2").
Proof.
  refine (linux_first_file_match_wins linux_file_in_second env0
            [ {| cand_name := "OTHER1"; cand_path := PPath "/media/marlin/OTHER1" |} ]
            []
            {| cand_name := "OTHER2"; cand_path := PPath "/media/marlin/OTHER2" |}
            eq_refl _ _ _).
  - vm_compute; reflexivity.
  - intros x [<-|[]]. vm_compute; reflexivity.
  - vm_compute; reflexivity.
Defined.

(** ** Linux and macOS: when the hook succeeds *)

Lemma uploaded_not_failed (st st' : hook_state) (p e : string) (flags : list event) :
  trace st' = trace st ++ flags ->
  uploaded st' p <> failed st e.
Proof.
  intros Htrace Heq. apply (f_equal trace) in Heq.
  unfold uploaded, failed, add_events in Heq. simpl in Heq.
  rewrite Htrace, <- app_assoc in Heq. apply app_inv_head in Heq.
  destruct flags as [|f [|g flags]]; discriminate Heq.
Qed.

Lemma flag_linux_trace (w : World) (st : hook_state) :
  exists flags, trace (flag_linux w st) = trace st ++ flags.
Proof.
  unfold flag_linux. destruct (String.eqb (current_OS w) "Linux").
  - now exists [Replace "UPLOAD_FLAGS" "-P$UPLOAD_PORT"].
  - exists []. now rewrite app_nil_r.
Qed.

(** X3.  On Linux and macOS (and on a system the hook does not know), once
    the candidates are enumerated, the hook writes an upload port exactly when
    some candidate can be listed and holds the target file; how the
    candidates are named plays no part. *)
Theorem posix_resolves_iff_file (w : World) (st : hook_state) (cs : list candidate) :
  current_OS w <> "Windows" ->
  candidates w = Ok cs ->
  (exists p, before_upload w st = (Ok tt, uploaded (flag_linux w st) p)) <->
  (exists c, In c cs /\ contains_file w c = true).
Proof.
  intros Hos Hcs. rewrite before_upload_outcome, Hcs.
  rewrite (find_same (takes w) (contains_file w)) by (intros c; now apply takes_posix).
  apply String.eqb_neq in Hos. unfold scan_prints. rewrite Hos, add_events_nil.
  destruct (find (contains_file w) cs) as [c|] eqn:Hfind.
  - split; [|eauto]. intros _. exists c. now apply find_some in Hfind.
  - split.
    + intros [p Heq]. apply (f_equal snd) in Heq. cbn [snd] in Heq. exfalso.
      destruct (flag_linux_trace w st) as [flags Hflags].
      exact (uploaded_not_failed _ _ _ _ _ Hflags (eq_sym Heq)).
    + intros (c & Hc & Hfile). rewrite find_none_iff in Hfind.
      rewrite (Hfind c Hc) in Hfile. discriminate.
Qed.

Lemma posix_resolves_iff_file_witness :
  (exists p, before_upload darwin_label_then_file env0 =
             (Ok tt, uploaded (flag_linux darwin_label_then_file env0) p)) <->
  (exists c,
      In c [ {| cand_name := "REARM"; cand_path := PPath "/Volumes/REARM" |};
             {| cand_name := "DISK_B"; cand_path := PPath "/Volumes/DISK_B" |} ] /\
      contains_file darwin_label_then_file c = true).
Proof.
  apply (posix_resolves_iff_file darwin_label_then_file env0).
  - discriminate.
  - vm_compute; reflexivity.
Defined.

(** ** What the hook leaves alone *)

(** X4.  Whatever the host and whatever the outcome, the hook changes no
    variable of the build environment other than [UPLOAD_PORT] and
    [UPLOAD_FLAGS]. *)
Theorem other_variables_untouched (w : World) (st : hook_state) (k : string) :
  k <> "UPLOAD_PORT" ->
  k <> "UPLOAD_FLAGS" ->
  env (snd (before_upload w st)) !! k = env st !! k.
Proof.
  intros Hport Hflags. rewrite before_upload_env.
  destruct (candidates w) as [cs|e]; [|reflexivity].
  destruct (find (takes w) cs) as [c|]; [|reflexivity].
  rewrite lookup_insert_ne by congruence.
  destruct (String.eqb (current_OS w) "Linux"); [|reflexivity].
  now rewrite lookup_insert_ne by congruence.
Qed.

Lemma other_variables_untouched_witness :
  env (snd (before_upload linux_file_in_second env0)) !! "PIOENV" = Some "LPC1768".
Proof.
  refine (other_variables_untouched linux_file_in_second env0 "PIOENV" _ _);
    discriminate.
Defined.

(** X5.  The upload flags are written on Linux only, always with the value
    [-P$UPLOAD_PORT], and only in a run that also writes the upload port; on
    every other system the variable [UPLOAD_FLAGS] keeps the value it had. *)
Theorem upload_flags_only_on_linux (w : World) (st : hook_state) :
  (forall evs v,
      trace (snd (before_upload w st)) = trace st ++ evs ->
      In (Replace "UPLOAD_FLAGS" v) evs ->
      current_OS w = "Linux" /\ v = "-P$UPLOAD_PORT" /\
      exists p, In (Replace "UPLOAD_PORT" p) evs) /\
  (current_OS w <> "Linux" ->
   env (snd (before_upload w st)) !! "UPLOAD_FLAGS" = env st !! "UPLOAD_FLAGS").
Proof.
  split.
  - intros evs v Htrace Hin.
    rewrite before_upload_trace in Htrace. apply app_inv_head in Htrace as <-.
    apply replace_in_hook_events in Hin as (cs & c & Hcs & Hfind & Hkv).
    destruct Hkv as [[Hk _]|(Hos & _ & ->)]; [discriminate Hk|].
    split; [exact Hos|]. split; [reflexivity|].
    exists (py_str (cand_path c)). apply replace_in_hook_events.
    exists cs, c. auto.
  - intros Hos. apply String.eqb_neq in Hos. rewrite before_upload_env, Hos.
    destruct (candidates w) as [cs|e]; [|reflexivity].
    destruct (find (takes w) cs) as [c|]; [|reflexivity].
    now rewrite lookup_insert_ne by discriminate.
Qed.

Lemma upload_flags_only_on_linux_witness :
  env (snd (before_upload windows_file_then_label env0)) !! "UPLOAD_FLAGS" =
  env env0 !! "UPLOAD_FLAGS".
Proof.
  refine (proj2 (upload_flags_only_on_linux windows_file_then_label env0) _).
  discriminate.
Defined.

(** ** Running the hook again *)

Lemma insert_port_flags_again (m : gmap string string) (p f : string) :
  <["UPLOAD_PORT" := p]>
    (<["UPLOAD_FLAGS" := f]> (<["UPLOAD_PORT" := p]> (<["UPLOAD_FLAGS" := f]> m))) =
  <["UPLOAD_PORT" := p]> (<["UPLOAD_FLAGS" := f]> m).
Proof.
  apply map_eq. intros k. rewrite !lookup_insert.
  repeat case_decide; reflexivity.
Qed.

(** X6.  On an unchanged host a second run of the hook leaves the build
    environment as the first run left it: what the hook selects does not
    depend on the environment, and it writes the same values again. *)
Theorem second_run_same_environment (w : World) (st : hook_state) :
  env (snd (before_upload w (snd (before_upload w st)))) =
  env (snd (before_upload w st)).
Proof.
  rewrite (before_upload_env w (snd (before_upload w st))).
  rewrite before_upload_env.
  destruct (candidates w) as [cs|e]; [|reflexivity].
  destruct (find (takes w) cs) as [c|]; [|reflexivity].
  destruct (String.eqb (current_OS w) "Linux").
  - apply insert_port_flags_again.
  - apply insert_insert_eq.
Qed.

(** ** The tests of the Windows loop are substring tests *)

Lemma append_cons (c : ascii) (a b : string) :
  String c a +:+ b = String c (a +:+ b).
Proof. reflexivity. Qed.

Lemma append_empty (b : string) : "" +:+ b = b.
Proof. reflexivity. Qed.

Lemma prefix_iff (n h : string) :
  String.prefix n h = true <-> exists b, h = n +:+ b.
Proof.
  revert h. induction n as [|a n IH]; intros h.
  - split; [intros _; now exists h | intros _; now destruct h].
  - destruct h as [|c h].
    + split; [discriminate | intros [b Hb]; discriminate Hb].
    + cbn [String.prefix]. destruct (ascii_dec a c) as [<-|Hne].
      * rewrite IH. split; intros [b Hb]; exists b.
        -- now rewrite append_cons, Hb.
        -- rewrite append_cons in Hb. now injection Hb.
      * split; [discriminate|]. intros [b Hb].
        rewrite append_cons in Hb. congruence.
Qed.

Lemma str_in_iff (n h : string) :
  str_in n h = true <-> exists a b, h = a +:+ n +:+ b.
Proof.
  induction h as [|c h IH].
  - cbn [str_in]. rewrite orb_false_r, prefix_iff. split.
    + intros [b Hb]. now exists "", b.
    + intros (a & b & Hab). destruct a; [eauto | discriminate Hab].
  - cbn [str_in]. rewrite orb_true_iff, prefix_iff, IH. split.
    + intros [[b Hb]|(a & b & Hab)].
      * now exists "", b.
      * exists (String c a), b. now rewrite append_cons, Hab.
    + intros (a & b & Hab). destruct a as [|c' a].
      * left. eauto.
      * right. rewrite append_cons in Hab. injection Hab as _ Hab. eauto.
Qed.

(** A drive whose answers hold the texts matches. *)
Lemma win_probe_of_answers (w : World) (d : string) :
  (exists a b, check_output w (vol_cmd d) = Ok (a +:+ target_drive +:+ b)) \/
  (exists v a b,
      check_output w (vol_cmd d) = Ok v /\
      check_output w (dir_cmd d) = Ok (a +:+ target_filename +:+ b)) ->
  probe_matches (win_probe w d) = true.
Proof.
  unfold win_probe. intros [(a & b & ->)|(v & a & b & -> & ->)].
  - assert (Hin : str_in target_drive (a +:+ target_drive +:+ b) = true)
      by (apply str_in_iff; eauto).
    now rewrite Hin.
  - assert (Hin : str_in target_filename (a +:+ target_filename +:+ b) = true)
      by (apply str_in_iff; eauto).
    rewrite Hin. now destruct (str_in target_drive v).
Qed.

(** A drive whose answers do not hold the texts does not match. *)
Lemma win_probe_without_texts (w : World) (d : string) :
  (forall v, check_output w (vol_cmd d) = Ok v ->
             forall a b, v <> a +:+ target_drive +:+ b) ->
  (forall di, check_output w (dir_cmd d) = Ok di ->
              forall a b, di <> a +:+ target_filename +:+ b) ->
  probe_matches (win_probe w d) = false.
Proof.
  intros Hvol Hdir. unfold win_probe.
  destruct (check_output w (vol_cmd d)) as [v|e]; [|reflexivity].
  destruct (str_in target_drive v) eqn:Hlabel.
  { apply str_in_iff in Hlabel as (a & b & ->). now destruct (Hvol _ eq_refl a b). }
  destruct (check_output w (dir_cmd d)) as [di|e]; [|reflexivity].
  destruct (str_in target_filename di) eqn:Hfile; [|reflexivity].
  apply str_in_iff in Hfile as (a & b & ->). now destruct (Hdir _ eq_refl a b).
Qed.

(** X7.  On Windows the label and the file are looked for anywhere in the
    text of the answers.  The first drive (no drive before it matching) whose
    answer of [vol] holds [REARM] somewhere, a volume labelled [REARM2]
    included, or for which [vol] answers and the answer of [dir] holds
    [FIRMWARE.CUR] somewhere, is written as the upload port; and when no answer
    of [vol] holds [REARM] and no answer of [dir] holds [FIRMWARE.CUR], the hook
    reports [Autodetect Error] and leaves the environment as it was. *)
Theorem windows_texts_anywhere_in_answers (w : World) (st : hook_state) :
  current_OS w = "Windows" ->
  (forall pre d post,
      windows_drives w = pre ++ d :: post ->
      (forall x, In x pre -> probe_matches (win_probe w x) = false) ->
      ((exists a b, check_output w (vol_cmd d) = Ok (a +:+ target_drive +:+ b)) \/
       (exists v a b,
           check_output w (vol_cmd d) = Ok v /\
           check_output w (dir_cmd d) = Ok (a +:+ target_filename +:+ b))) ->
      env (snd (before_upload w st)) !! "UPLOAD_PORT" = Some (d +:+ ":")) /\
  ((forall d, In d (windows_drives w) ->
      (forall v, check_output w (vol_cmd d) = Ok v ->
                 forall a b, v <> a +:+ target_drive +:+ b) /\
      (forall di, check_output w (dir_cmd d) = Ok di ->
                  forall a b, di <> a +:+ target_filename +:+ b)) ->
   before_upload w st =
     (Ok tt, failed (add_events st (scan_prints w)) "Autodetect Error") /\
   env (snd (before_upload w st)) = env st).
Proof.
  intros Hos. split.
  - intros pre d post Hdrives Hpre Htexts.
    rewrite (windows_first_match w st pre post d Hos Hdrives Hpre
               (win_probe_of_answers w d Htexts)).
    apply lookup_insert_eq.
  - intros Hnone.
    assert (Hfind : find (takes w) (windows_candidates w) = None).
    { unfold takes, windows_candidates. known_os Hos.
      rewrite find_windows_candidates.
      revert Hnone. generalize (windows_drives w). intros drives Hnone.
      assert (Hdrives : find (fun d => probe_matches (win_probe w d)) drives = None).
      { apply find_none_iff. intros d Hd. destruct (Hnone d Hd).
        now apply win_probe_without_texts. }
      now rewrite Hdrives. }
    split.
    + now rewrite before_upload_outcome, (candidates_windows _ Hos), Hfind.
    + now rewrite before_upload_env, (candidates_windows _ Hos), Hfind.
Qed.

Lemma windows_texts_anywhere_in_answers_witness :
  env (snd (before_upload windows_rearm2 env0)) !! "UPLOAD_PORT" = Some "E:".
Proof.
  refine (proj1 (windows_texts_anywhere_in_answers windows_rearm2 env0 eq_refl)
            [] "E" [] _ _ _).
  - vm_compute; reflexivity.
  - intros x [].
  - left. exists "b' Volume in drive E is ", "2'". vm_compute; reflexivity.
Defined.

(** ** The error lines of the Windows loop *)

Lemma win_prints_no_match (w : World) (drives : list string) :
  (forall d, In d drives -> probe_matches (win_probe w d) = false) ->
  win_prints w drives = omap (probe_error_line w) drives.
Proof.
  induction drives as [|d rest IH]; intros Hnone; [reflexivity|].
  cbn [win_prints omap list_omap]. unfold probe_error_line at 1.
  pose proof (Hnone d (or_introl eq_refl)) as Hd.
  rewrite IH by (intros x Hx; apply Hnone; now right).
  destruct (win_probe w d); try discriminate Hd; reflexivity.
Qed.

(** X9.  On Windows, when no drive matches, the hook prints one line
    [error:...] for each drive whose [vol] or [dir] query raised, in the order
    of the drives and with the text of the exception, then the diagnostic
    [Autodetect Error]; the build environment is not written. *)
Theorem windows_error_lines (w : World) (st : hook_state) :
  current_OS w = "Windows" ->
  (forall d, In d (windows_drives w) -> probe_matches (win_probe w d) = false) ->
  before_upload w st =
    (Ok tt,
     failed (add_events st (omap (probe_error_line w) (windows_drives w)))
            "Autodetect Error").
Proof.
  intros Hos. rewrite before_upload_outcome, (candidates_windows _ Hos).
  unfold takes, scan_prints, windows_candidates. known_os Hos.
  rewrite find_windows_candidates.
  generalize (windows_drives w). intros drives Hnone.
  rewrite (win_prints_no_match _ _ Hnone).
  apply find_none_iff in Hnone. now rewrite Hnone.
Qed.

Lemma windows_error_lines_witness :
  before_upload windows_not_ready env0 =
    (Ok tt,
     failed (add_events env0
               [error_line "Command 'cmd /C vol A:' returned non-zero exit status 1.";
                error_line "Command 'cmd /C dir C:' returned non-zero exit status 5."])
            "Autodetect Error").
Proof.
  refine (windows_error_lines windows_not_ready env0 eq_refl _).
  assert (Hdrives : windows_drives windows_not_ready = ["A"; "C"; "D"])
    by (vm_compute; reflexivity).
  rewrite Hdrives. intros d [<-|[<-|[<-|[]]]]; vm_compute; reflexivity.
Defined.

(** ** Where the handler of the hook is not reached *)

(** X10.  On Windows, and on a system the hook does not know, the body of
    the [try] never raises: every query that can fail is caught drive by
    drive, so a failure of the hook is always reported as [Autodetect Error]
    and never with the text of an exception. *)
Theorem body_never_raises_off_posix (w : World) (st : hook_state) :
  current_OS w <> "Linux" ->
  current_OS w <> "Darwin" ->
  fst (before_upload_body w st) = Ok tt /\
  ((exists p, before_upload w st =
              (Ok tt, uploaded (add_events st (scan_prints w)) p)) \/
   before_upload w st =
     (Ok tt, failed (add_events st (scan_prints w)) "Autodetect Error")).
Proof.
  intros Hlin Hmac.
  assert (Hcs : exists cs, candidates w = Ok cs).
  { destruct (String.eqb_spec (current_OS w) "Windows") as [Hwin|Hwin].
    - eexists. now apply candidates_windows.
    - unfold candidates. apply String.eqb_neq in Hwin, Hlin, Hmac.
      rewrite Hwin, Hlin, Hmac. eauto. }
  destruct Hcs as [cs Hcs]. split; [now apply (body_enumerated w st cs)|].
  rewrite before_upload_outcome, Hcs. unfold flag_linux.
  apply String.eqb_neq in Hlin. rewrite Hlin.
  destruct (find (takes w) cs) as [c|]; eauto.
Qed.

Lemma body_never_raises_off_posix_witness :
  fst (before_upload_body windows_not_ready env0) = Ok tt /\
  ((exists p, before_upload windows_not_ready env0 =
              (Ok tt, uploaded (add_events env0 (scan_prints windows_not_ready)) p)) \/
   before_upload windows_not_ready env0 =
     (Ok tt, failed (add_events env0 (scan_prints windows_not_ready)) "Autodetect Error")).
Proof.
  apply (body_never_raises_off_posix windows_not_ready env0); discriminate.
Defined.
